(** * Artificial Senses: the capture-to-publish pipeline

    A shallow embedding of [camera.py], [segmentation.py] and
    [processor.py] of the [artificial_senses] package, and the properties
    of the pipeline proved over it.

    Conventions.
    - numpy [uint8] images are nested lists, rows of pixels of channels,
      every channel a [Z] in [0, 255];
    - Python floats are idealised as exact rationals ([Q]); [int(x)] is
      truncation toward zero;
    - a Python exception is a value of [exn] carried by [result];
    - the collaborators that live outside the package (the RealSense SDK,
      OpenCV's rasteriser and moments, the YOLO model) are the fields of
      the class [Collaborators]. *)

From Stdlib Require Import String.
From Stdlib Require Import List ZArith QArith Bool Lia Arith DecimalString.
Import ListNotations.

Set Implicit Arguments.
Close Scope Q_scope.

(** ** Exceptions and results *)

Inductive exn : Type :=
| IndexError
| ValueError
| RuntimeError
| ZeroDivisionError.

Inductive result (A : Type) : Type :=
| Ok (a : A)
| Raise (e : exn).

Arguments Ok {A} a.
Arguments Raise {A} e.

Definition bind {A B : Type} (r : result A) (k : A -> result B) : result B :=
  match r with
  | Ok a => k a
  | Raise e => Raise e
  end.

Notation "x <- r ;; k" := (bind r (fun x => k))
  (at level 61, r at next level, right associativity).

(** [mapM f l]: run [f] on the elements of [l] from left to right, stop at
    the first exception. *)
Fixpoint mapM {A B : Type} (f : A -> result B) (l : list A) : result (list B) :=
  match l with
  | [] => Ok []
  | a :: l' => b <- f a ;; bs <- mapM f l' ;; Ok (b :: bs)
  end.

(** ** Numbers *)

(** Python's [int(x)] on a float: truncation toward zero. *)
Definition py_int (q : Q) : Z := Z.quot (Qnum q) (Z.pos (Qden q)).

(** Python's [a / b] on floats: [ZeroDivisionError] when [b] is zero. *)
Definition py_div (a b : Q) : result Q :=
  if Qeq_bool b 0 then Raise ZeroDivisionError else Ok (a / b)%Q.

(** ** Arrays *)

(** A pixel is the list of its channels, an image the list of its rows. *)
Definition pixel : Type := list Z.
Definition ndarray : Type := list (list pixel).

Definition uint8 (v : Z) : Prop := (0 <= v <= 255)%Z.
Definition uint8_image (a : ndarray) : Prop :=
  Forall (Forall (Forall uint8)) a.

(** [np.zeros(a.shape, np.uint8)] *)
Definition zeros_like (a : ndarray) : ndarray :=
  map (map (map (fun _ : Z => 0%Z))) a.

(** [np.flipud(a)] and [cv2.flip(a, 0)]: the rows in reverse order. *)
Definition flipud (a : ndarray) : ndarray := rev a.

(** [cv2.cvtColor(a, cv2.COLOR_BGR2RGB)]: swap the first and third channel. *)
Definition bgr2rgb_pixel (p : pixel) : pixel :=
  match p with
  | [b; g; r] => [r; g; b]
  | _ => p
  end.
Definition cvtColor_BGR2RGB (a : ndarray) : ndarray :=
  map (map bgr2rgb_pixel) a.

(** Element-wise combination of two arrays of the same shape. *)
Fixpoint zip_with {A B C : Type} (f : A -> B -> C) (l : list A) (m : list B)
  : list C :=
  match l, m with
  | a :: l', b :: m' => f a b :: zip_with f l' m'
  | _, _ => []
  end.

(** [cv2.addWeighted(src1, 1, src2, 0.5, 0)] on one [uint8] channel: the
    value [src1 + src2 / 2] rounded to the nearest integer, ties to even,
    then saturated to [0, 255]. *)
Definition round_half_even_halves (twice : Z) : Z :=
  let q := (twice / 2)%Z in
  if Z.even twice then q
  else if Z.even q then q else (q + 1)%Z.

Definition saturate_u8 (v : Z) : Z := Z.max 0 (Z.min 255 v).

Definition add_weighted_channel (c s : Z) : Z :=
  saturate_u8 (round_half_even_halves (2 * c + s)).

Definition addWeighted (src1 src2 : ndarray) : ndarray :=
  zip_with (zip_with (zip_with add_weighted_channel)) src1 src2.

(** ** The handoff of [processor.py]: [self._queue = queue.Queue()] *)

Module Handoff.

Section Queue.
Variable Dataset : Type.

(** The content of a [queue.Queue()] built without [maxsize]: the items
    oldest first. *)
Definition queue : Type := list Dataset.

(** [queue.Queue()] *)
Definition new : queue := [].

(** [self._queue.put(d)]: append; an unbounded queue never blocks. *)
Definition put (q : queue) (d : Dataset) : queue := q ++ [d].

(** [self._queue.empty()] *)
Definition empty (q : queue) : bool :=
  match q with [] => true | _ :: _ => false end.

(** [Processor.get_dataset]:
    [if self._queue.empty(): return None
     else: return self._queue.get_nowait()] *)
Definition get_dataset (q : queue) : option Dataset * queue :=
  if empty q then (None, q)
  else match q with
       | d :: q' => (Some d, q')
       | [] => (None, q)
       end.

(** The operations of the producer and of the consumer. *)
Inductive op : Type :=
| Publish (d : Dataset)
| Take.

Definition step (q : queue) (o : op) : queue :=
  match o with
  | Publish d => put q d
  | Take => snd (get_dataset q)
  end.

Definition run (q : queue) (ops : list op) : queue := fold_left step ops q.

(** The number of datasets put and not yet taken. *)
Definition buffered (q : queue) : nat := length q.

Definition is_publish (o : op) : bool :=
  match o with Publish _ => true | Take => false end.

(** The takes of a trace that found a dataset. *)
Fixpoint successful_takes (q : queue) (ops : list op) : nat :=
  match ops with
  | [] => 0
  | Publish d :: ops' => successful_takes (put q d) ops'
  | Take :: ops' =>
      (if empty q then 0 else 1) + successful_takes (snd (get_dataset q)) ops'
  end.

Definition publishes (ops : list op) : nat :=
  length (filter is_publish ops).

(** What at most [n] takes in a row retrieve, in order; stops at the first
    take that finds nothing. *)
Fixpoint take_all (n : nat) (q : queue) : list Dataset :=
  match n with
  | O => []
  | S n' =>
      match get_dataset q with
      | (Some d, q') => d :: take_all n' q'
      | (None, _) => []
      end
  end.
End Queue.

End Handoff.

(** ** The RealSense SDK as [camera.py] uses it *)

(** An aligned depth frame: the z16 samples, row by row, and the depth
    unit (metres per sample unit) of the sensor. *)
Record DepthFrame : Type := {
  depth_units : Q;
  depth_data : list (list Z)
}.

(** [depth_frame.get_distance(x, y)]: the sample at column [x] of row [y]
    times the depth unit; the SDK raises on a pixel outside the frame. *)
Definition get_distance (f : DepthFrame) (x y : Z) : result Q :=
  if ((0 <=? x) && (0 <=? y))%Z then
    match nth_error (depth_data f) (Z.to_nat y) with
    | Some row =>
        match nth_error row (Z.to_nat x) with
        | Some v => Ok (inject_Z v * depth_units f)%Q
        | None => Raise RuntimeError
        end
    | None => Raise RuntimeError
    end
  else Raise RuntimeError.

(** A colour frame: [color_frame.get_data()] is a BGR image. *)
Record ColorFrame : Type := {
  get_data : ndarray
}.

(** What [self._align.process(frames)] gives back.  A frame handle that
    holds no frame is falsy in Python: it is [None] here. *)
Record AlignedFrames : Type := {
  get_depth_frame : option DepthFrame;
  get_color_frame : option ColorFrame
}.

(** A point of the point cloud. *)
Definition vertex : Type := (Q * Q * Q)%type.

(** A detection of the model: [c.names[c.boxes.cls.tolist().pop()]] and
    [c.masks.xy.pop()], the mask polygon in float pixel coordinates. *)
Record Detection : Type := {
  label : string;
  mask_xy : list (Q * Q)
}.

(** The [Results] object of one image: iterating it gives its detections. *)
Definition Results : Type := list Detection.

(** The value [predict] returns: with [stream=True] a generator, without
    it a list.  Both are consumed by [list(results)]. *)
Inductive predict_output : Type :=
| Generator (items : list Results)
| ResultList (items : list Results).

Definition items_of (r : predict_output) : list Results :=
  match r with Generator l | ResultList l => l end.

(** Python truth value: a generator object is always true, a list is true
    when it is not empty. *)
Definition truthy (r : predict_output) : bool :=
  match r with
  | Generator _ => true
  | ResultList l => negb (Nat.eqb (length l) 0)
  end.

(** A contour as OpenCV takes it: [int32] points [(x, y)]. *)
Definition contour : Type := list (Z * Z).

(** The moments [segmentation.py] reads from [cv2.moments]. *)
Record Moments : Type := {
  m00 : Q;
  m10 : Q;
  m01 : Q
}.

(** The collaborators outside the package. *)
Class Collaborators : Type := {
  (** the composite frames the SDK pipeline delivers, in order *)
  Frames : Type;
  incoming : nat -> Frames;
  (** [rs.align(rs.stream.color).process] *)
  align_process : Frames -> AlignedFrames;
  (** [rs.colorizer().colorize(depth_frame).get_data()] *)
  colorize : DepthFrame -> ndarray;
  (** [rs.pointcloud().calculate(depth_frame).get_vertices(2)] *)
  calculate : DepthFrame -> list vertex;
  (** [YOLO.predict(color_image, stream=True, verbose=False)] *)
  predict : ndarray -> predict_output;
  (** the pixels [(x, y)] OpenCV fills for a contour *)
  filled : contour -> nat -> nat -> bool;
  (** [cv2.moments] *)
  moments : contour -> Moments
}.

(** The moments OpenCV computes for a polygon (Green's formula over the
    edges, [m00] the absolute area); used to evaluate examples. *)
Definition edge_sums (c : contour) : Z * Z * Z :=
  match c with
  | [] => (0, 0, 0)%Z
  | _ :: _ =>
      let '(_, a) :=
        fold_left
          (fun (st : (Z * Z) * (Z * Z * Z)) (p : Z * Z) =>
             let '((xp, yp), (a00, a10, a01)) := st in
             let '(xi, yi) := p in
             let dxy := (xp * yi - xi * yp)%Z in
             ((xi, yi),
              ((a00 + dxy)%Z,
               (a10 + dxy * (xp + xi))%Z,
               (a01 + dxy * (yp + yi))%Z)))
          c (last c (0, 0)%Z, (0, 0, 0)%Z)
      in a
  end.

Definition contour_moments (c : contour) : Moments :=
  let '(a00, a10, a01) := edge_sums c in
  if (a00 =? 0)%Z then {| m00 := 0; m10 := 0; m01 := 0 |}
  else
    let s := if (0 <? a00)%Z then 1%Q else (-1)%Q in
    {| m00 := s * inject_Z a00 * (1 # 2);
       m10 := s * inject_Z a10 * (1 # 6);
       m01 := s * inject_Z a01 * (1 # 6) |}.


(** ** [camera.py] *)

Module Camera.

(** The SDK pipeline: whether it streams, and how many composite frames
    it has handed out. *)
Record Pipeline : Type := {
  streaming : bool;
  delivered : nat
}.

(** [pipeline.stop()]: the SDK refuses to stop a pipeline that is not
    started ("stop() cannot be called before start()"). *)
Definition pipeline_stop (p : Pipeline) : result Pipeline :=
  if streaming p
  then Ok {| streaming := false; delivered := delivered p |}
  else Raise RuntimeError.

Record Frameset : Type := {
  depth_frame : DepthFrame;
  depth_image : ndarray;
  color_image : ndarray;
  pointcloud_vertexes : list (list vertex);
  pointcloud_colors : ndarray
}.

Record RealSenseCamera : Type := {
  _pipeline : Pipeline;
  depth_scale : Q;
  _depth_width : nat;
  _depth_height : nat
}.

Definition CAPTURE_WIDTH : nat := 640.
Definition CAPTURE_HEIGHT : nat := 480.

Definition with_pipeline (cam : RealSenseCamera) (p : Pipeline)
  : RealSenseCamera :=
  {| _pipeline := p;
     depth_scale := depth_scale cam;
     _depth_width := _depth_width cam;
     _depth_height := _depth_height cam |}.

(** [np.ones((h, w, 1), dtype=np.uint8) * 255] *)
Definition ones_255 (h w : nat) : ndarray :=
  repeat (repeat [((1 * 255) mod 256)%Z] w) h.

(** Pair two lists of the same length element by element; numpy raises
    [ValueError] when the lengths differ. *)
Fixpoint zipM {A B D : Type} (f : A -> B -> result D) (l : list A)
  (m : list B) : result (list D) :=
  match l, m with
  | [], [] => Ok []
  | a :: l', b :: m' => d <- f a b ;; ds <- zipM f l' m' ;; Ok (d :: ds)
  | _, _ => Raise ValueError
  end.

(** [np.concatenate((a, b), axis=-1)] on arrays of three dimensions. *)
Definition concatenate_last (a b : ndarray) : result ndarray :=
  zipM (zipM (fun p q : pixel => Ok (p ++ q))) a b.

(** The rows of [l] taken [w] at a time, [h] times. *)
Fixpoint rows_of {A : Type} (h w : nat) (l : list A) : list (list A) :=
  match h with
  | O => []
  | S h' => firstn w l :: rows_of h' w (skipn w l)
  end.

(** [vertices.reshape(h, w, 3)] on the [(n, 3)] array of vertices. *)
Definition reshape {A : Type} (h w : nat) (l : list A)
  : result (list (list A)) :=
  if Nat.eqb (length l) (h * w) then Ok (rows_of h w l) else Raise ValueError.

Section WithCollaborators.
Context {C : Collaborators}.

(** [self._pipeline.wait_for_frames()]: the next composite frame of a
    streaming pipeline. *)
Definition wait_for_frames (p : Pipeline) : result (Frames * Pipeline) :=
  if streaming p
  then Ok (incoming (delivered p),
           {| streaming := true; delivered := S (delivered p) |})
  else Raise RuntimeError.

(** The body of [get_frames] after the test of the two frames. *)
Definition build_frameset (cam : RealSenseCamera) (depth_frame : DepthFrame)
  (color_frame : ColorFrame) : result Frameset :=
  let color_image := get_data color_frame in
  let ones := ones_255 (_depth_height cam) (_depth_width cam) in
  let depth_colormap := colorize depth_frame in
  colors <- concatenate_last depth_colormap ones ;;
  let points := calculate depth_frame in
  vertexes <- reshape (_depth_height cam) (_depth_width cam) points ;;
  Ok {| depth_frame := depth_frame;
        depth_image := flipud depth_colormap;
        color_image := color_image;
        pointcloud_vertexes := vertexes;
        pointcloud_colors := colors |}.

(** [RealSenseCamera.get_frames]: the [while True] loop, [fuel] bounding
    the number of iterations; [None] when the loop is still running after
    [fuel] iterations. *)
Fixpoint get_frames (fuel : nat) (cam : RealSenseCamera)
  : option (result (Frameset * RealSenseCamera)) :=
  match fuel with
  | O => None
  | S fuel' =>
      match wait_for_frames (_pipeline cam) with
      | Raise e => Some (Raise e)
      | Ok (frames, p') =>
          let cam' := with_pipeline cam p' in
          let aligned_frames := align_process frames in
          match get_depth_frame aligned_frames,
                get_color_frame aligned_frames with
          | Some depth_frame, Some color_frame =>
              Some (fs <- build_frameset cam' depth_frame color_frame ;;
                    Ok (fs, cam'))
          | _, _ => get_frames fuel' cam'
          end
      end
  end.

(** [RealSenseCamera.stop]: [self._pipeline.stop()] *)
Definition stop (cam : RealSenseCamera) : result RealSenseCamera :=
  p <- pipeline_stop (_pipeline cam) ;; Ok (with_pipeline cam p).

(** The aligned pair the pipeline delivers at position [i]. *)
Definition aligned_at (i : nat) : AlignedFrames := align_process (incoming i).

(** A pair is usable when both of its frames are there. *)
Definition valid_pair (a : AlignedFrames) : bool :=
  match get_depth_frame a, get_color_frame a with
  | Some _, Some _ => true
  | _, _ => false
  end.

(** The camera after [k] more composite frames were handed out. *)
Definition advance (cam : RealSenseCamera) (k : nat) : RealSenseCamera :=
  with_pipeline cam
    {| streaming := true; delivered := delivered (_pipeline cam) + k |}.

(** Counting from the next pair the pipeline delivers, pair [k] is the
    first usable one, and it holds the frames [d] and [c]. *)
Definition first_usable_at (cam : RealSenseCamera) (k : nat)
  (d : DepthFrame) (c : ColorFrame) : Prop :=
  (forall i, i < k ->
     valid_pair (aligned_at (delivered (_pipeline cam) + i)) = false)
  /\ get_depth_frame (aligned_at (delivered (_pipeline cam) + k)) = Some d
  /\ get_color_frame (aligned_at (delivered (_pipeline cam) + k)) = Some c.

(** An image with one more channel, 255 everywhere. *)
Definition with_alpha (a : ndarray) : ndarray :=
  map (map (fun px : pixel => px ++ [255%Z])) a.

End WithCollaborators.

End Camera.

(** ** [segmentation.py] *)

Module Segmentation.

Record Segmentation : Type := {
  _include_labels : list string
}.

(** A centroid as [process] returns it: [(cx, cy, distance)]. *)
Definition centroid : Type := (Z * Z * Q)%type.

(** The pixel of a centroid. *)
Definition pixel_of (c : centroid) : Z * Z := (fst (fst c), snd (fst c)).

(** [label not in self._include_labels], negated *)
Definition label_in (l : string) (labels : list string) : bool :=
  existsb (String.eqb l) labels.

(** [xy.astype(np.int32).reshape(-1, 1, 2)] *)
Definition to_contour (xy : list (Q * Q)) : contour :=
  map (fun p : Q * Q => (py_int (fst p), py_int (snd p))) xy.

(** [map] with the position of the element. *)
Fixpoint map_indexed {A B : Type} (f : nat -> A -> B) (i : nat) (l : list A)
  : list B :=
  match l with
  | [] => []
  | a :: l' => f i a :: map_indexed f (S i) l'
  end.

Section WithCollaborators.
Context {C : Collaborators}.

(** [cv2.drawContours(img, [contour], -1, (0, 0, 255), cv2.FILLED)]: the
    pixels of the filled contour take the colour [(0, 0, 255)]. *)
Definition drawContours (img : ndarray) (c : contour) : ndarray :=
  map_indexed
    (fun y row =>
       map_indexed
         (fun x (px : pixel) =>
            if filled c x y then firstn (length px) [0; 0; 255; 0]%Z else px)
         0 row)
    0 img.

(** The first loop of [process]: paint the contours of the detections
    with an allowed label, and collect them. *)
Definition paint (seg : Segmentation) (result : Results)
  (segmented_image : ndarray) : ndarray * list contour :=
  fold_left
    (fun (st : ndarray * list contour) (c : Detection) =>
       if negb (label_in (label c) (_include_labels seg)) then st
       else
         let contour := to_contour (mask_xy c) in
         (drawContours (fst st) contour, snd st ++ [contour]))
    result (segmented_image, []).

(** The second loop of [process]. *)
Fixpoint collect (depth_frame : DepthFrame) (all_contours : list contour)
  (centroids : list centroid) : result (list centroid) :=
  match all_contours with
  | [] => Ok centroids
  | contour :: rest =>
      let moments := moments contour in
      if negb (Qeq_bool (m00 moments) 0) then
        let cx := py_int (m10 moments / m00 moments) in
        let cy := py_int (m01 moments / m00 moments) in
        d <- get_distance depth_frame cx cy ;;
        collect depth_frame rest (centroids ++ [(cx, cy, d)])
      else collect depth_frame rest centroids
  end.

(** [Segmentation.process] *)
Definition process (seg : Segmentation) (color_image : ndarray)
  (depth_frame : DepthFrame) : result (ndarray * list centroid) :=
  let results := predict color_image in
  let segmented_image := zeros_like color_image in
  let centroids := [] in
  if truthy results then
    match items_of results with
    | [] => Raise IndexError
    | result :: _ =>
        let '(segmented_image, all_contours) :=
          paint seg result segmented_image in
        let segmented_image := addWeighted color_image segmented_image in
        centroids <- collect depth_frame all_contours centroids ;;
        Ok (segmented_image, centroids)
    end
  else Ok (segmented_image, centroids).

(** The contours [process] keeps: those of the allowed detections. *)
Definition allowed_contours (seg : Segmentation) (result : Results)
  : list contour :=
  map (fun c => to_contour (mask_xy c))
      (filter (fun c => label_in (label c) (_include_labels seg)) result).

(** The image-moment centroid of a contour, exact: [(M10/M00, M01/M00)]. *)
Definition moment_centroid (c : contour) : Q * Q :=
  let m := moments c in ((m10 m / m00 m)%Q, (m01 m / m00 m)%Q).

Definition degenerate (c : contour) : bool := Qeq_bool (m00 (moments c)) 0.

End WithCollaborators.

End Segmentation.

(** ** [processor.py] *)

Module Processor.

(** [pyglet.image.ImageData(width, height, fmt, data)] *)
Record ImageData : Type := {
  width : nat;
  height : nat;
  fmt : string;
  data : list Z
}.

(** [image.tobytes()] *)
Definition tobytes (a : ndarray) : list Z := concat (concat a).

(** [image.shape[1]], [image.shape[0]] *)
Definition shape1 (a : ndarray) : nat :=
  match a with [] => 0 | row :: _ => length row end.
Definition shape0 (a : ndarray) : nat := length a.

(** [Processor._cv2img_to_pyglet] *)
Definition _cv2img_to_pyglet (image : ndarray) : ImageData :=
  let image := cvtColor_BGR2RGB image in
  let image := flipud image in
  {| width := shape1 image; height := shape0 image;
     fmt := "RGB"; data := tobytes image |}.

(** [Processor._nparray_to_cv2img] *)
Definition _nparray_to_cv2img (image : ndarray) : ImageData :=
  {| width := shape1 image; height := shape0 image;
     fmt := "RGB"; data := tobytes image |}.

Record Dataset : Type := {
  color_image : ImageData;
  depth_paletted_image : ImageData;
  segmented_image : ImageData;
  centroids : list (Z * Z * Z);
  pointcloud_vertexes : list (list vertex);
  pointcloud_colors : ndarray
}.

Record Processor : Type := {
  _camera : Camera.RealSenseCamera;
  _segmentation : Segmentation.Segmentation;
  _running : bool;
  _queue : Handoff.queue Dataset
}.

(** [Processor.__init__] *)
Definition init (camera : Camera.RealSenseCamera) : Processor :=
  {| _camera := camera;
     _segmentation := {| Segmentation._include_labels := ["person"%string] |};
     _running := false;
     _queue := Handoff.new Dataset |}.

(** [(c[0], c[1], int(c[2] / self._camera.depth_scale))] *)
Definition to_millimeters (depth_scale : Q) (c : Segmentation.centroid)
  : result (Z * Z * Z) :=
  let '(c0, c1, c2) := c in
  d <- py_div c2 depth_scale ;; Ok (c0, c1, py_int d).

Section WithCollaborators.
Context {C : Collaborators}.

(** What [_process_frame] puts in the queue, from the frameset and the
    camera as [get_frames] left it. *)
Definition assemble (seg : Segmentation.Segmentation)
  (camera : Camera.RealSenseCamera) (frameset : Camera.Frameset)
  : result Dataset :=
  sc <- Segmentation.process seg (Camera.color_image frameset)
                             (Camera.depth_frame frameset) ;;
  let '(segmented_image, centroids) := sc in
  centroids <- mapM (to_millimeters (Camera.depth_scale camera)) centroids ;;
  Ok {| color_image := _cv2img_to_pyglet (Camera.color_image frameset);
        depth_paletted_image :=
          _nparray_to_cv2img (Camera.depth_image frameset);
        segmented_image := _cv2img_to_pyglet segmented_image;
        centroids := centroids;
        pointcloud_vertexes := Camera.pointcloud_vertexes frameset;
        pointcloud_colors := Camera.pointcloud_colors frameset |}.

(** [Processor._process_frame]; [None] while [get_frames] is still
    waiting for a usable pair after [fuel] pairs. *)
Definition _process_frame (fuel : nat) (p : Processor)
  : option (result Processor) :=
  match Camera.get_frames fuel (_camera p) with
  | None => None
  | Some (Raise e) => Some (Raise e)
  | Some (Ok (frameset, camera)) =>
      Some (d <- assemble (_segmentation p) camera frameset ;;
            Ok {| _camera := camera;
                  _segmentation := _segmentation p;
                  _running := _running p;
                  _queue := Handoff.put (_queue p) d |})
  end.

(** [Processor.get_dataset] on the processor. *)
Definition get_dataset (p : Processor) : option Dataset * Processor :=
  let '(d, q) := Handoff.get_dataset (_queue p) in
  (d, {| _camera := _camera p;
         _segmentation := _segmentation p;
         _running := _running p;
         _queue := q |}).

End WithCollaborators.

End Processor.

(** ** The processor thread and the thread that owns it

    [Processor] is a [threading.Thread]: [start()] spawns [run], [stop]
    clears the flag and joins.  The two threads are interleaved statement
    by statement; the body of [_process_frame] is cut at its two calls of
    collaborators, which are counted. *)

Module Lifecycle.

(** Where the background thread is. *)
Inductive thread_pc : Type :=
| Unstarted                               (* [start()] not called yet *)
| AtRun                                   (* before [self._running = True] *)
| AtTest                                  (* at [while self._running] *)
| AtGetFrames                             (* before [self._camera.get_frames()] *)
| AtSegment (frameset : Camera.Frameset)  (* before [self._segmentation.process] *)
| AtPut (d : Processor.Dataset)           (* before [self._queue.put] *)
| Finished.                               (* [run] is over *)

(** Where the owner of the processor is. *)
Inductive main_pc : Type :=
| Idle          (* [stop()] not called yet *)
| Joining       (* in [stop()], after [self._running = False], in [join()] *)
| Stopped       (* [stop()] has returned *)
| StopRaised    (* [join()] raised: the thread was never started *)
| Closed.       (* after [stop()], the camera is closed too *)

Record state : Type := {
  proc : Processor.Processor;
  thread : thread_pc;
  main : main_pc;
  get_frames_calls : nat;
  process_calls : nat
}.

Definition set_running (p : Processor.Processor) (b : bool)
  : Processor.Processor :=
  {| Processor._camera := Processor._camera p;
     Processor._segmentation := Processor._segmentation p;
     Processor._running := b;
     Processor._queue := Processor._queue p |}.

Definition set_camera (p : Processor.Processor)
  (c : Camera.RealSenseCamera) : Processor.Processor :=
  {| Processor._camera := c;
     Processor._segmentation := Processor._segmentation p;
     Processor._running := Processor._running p;
     Processor._queue := Processor._queue p |}.

Definition put_dataset (p : Processor.Processor) (d : Processor.Dataset)
  : Processor.Processor :=
  {| Processor._camera := Processor._camera p;
     Processor._segmentation := Processor._segmentation p;
     Processor._running := Processor._running p;
     Processor._queue := Handoff.put (Processor._queue p) d |}.

Definition initial (camera : Camera.RealSenseCamera) : state :=
  {| proc := Processor.init camera;
     thread := Unstarted;
     main := Idle;
     get_frames_calls := 0;
     process_calls := 0 |}.

Definition stop_returned (s : state) : Prop :=
  main s = Stopped \/ main s = Closed.

(** [stop] has returned only if the thread is over. *)
Definition joined (s : state) : Prop :=
  stop_returned s -> thread s = Finished.

Section WithCollaborators.
Context {C : Collaborators}.

Inductive step : state -> state -> Prop :=
(* the owner: [processor.start()] *)
| step_start : forall p n k,
    step {| proc := p; thread := Unstarted; main := Idle;
            get_frames_calls := n; process_calls := k |}
         {| proc := p; thread := AtRun; main := Idle;
            get_frames_calls := n; process_calls := k |}
(* the thread: [self._running = True] *)
| step_run : forall p m n k,
    step {| proc := p; thread := AtRun; main := m;
            get_frames_calls := n; process_calls := k |}
         {| proc := set_running p true; thread := AtTest; main := m;
            get_frames_calls := n; process_calls := k |}
(* the thread: [while self._running], flag set *)
| step_loop : forall p m n k,
    Processor._running p = true ->
    step {| proc := p; thread := AtTest; main := m;
            get_frames_calls := n; process_calls := k |}
         {| proc := p; thread := AtGetFrames; main := m;
            get_frames_calls := n; process_calls := k |}
(* the thread: [while self._running], flag cleared *)
| step_exit : forall p m n k,
    Processor._running p = false ->
    step {| proc := p; thread := AtTest; main := m;
            get_frames_calls := n; process_calls := k |}
         {| proc := p; thread := Finished; main := m;
            get_frames_calls := n; process_calls := k |}
(* the thread: [frameset = self._camera.get_frames()] *)
| step_get_frames : forall p m n k fuel frameset camera,
    Camera.get_frames fuel (Processor._camera p)
      = Some (Ok (frameset, camera)) ->
    step {| proc := p; thread := AtGetFrames; main := m;
            get_frames_calls := n; process_calls := k |}
         {| proc := set_camera p camera; thread := AtSegment frameset;
            main := m; get_frames_calls := S n; process_calls := k |}
| step_get_frames_raise : forall p m n k fuel e,
    Camera.get_frames fuel (Processor._camera p) = Some (Raise e) ->
    step {| proc := p; thread := AtGetFrames; main := m;
            get_frames_calls := n; process_calls := k |}
         {| proc := p; thread := Finished; main := m;
            get_frames_calls := S n; process_calls := k |}
(* the thread: [self._segmentation.process(...)] and the conversion *)
| step_segment : forall p m n k frameset d,
    Processor.assemble (Processor._segmentation p) (Processor._camera p)
                       frameset = Ok d ->
    step {| proc := p; thread := AtSegment frameset; main := m;
            get_frames_calls := n; process_calls := k |}
         {| proc := p; thread := AtPut d; main := m;
            get_frames_calls := n; process_calls := S k |}
| step_segment_raise : forall p m n k frameset e,
    Processor.assemble (Processor._segmentation p) (Processor._camera p)
                       frameset = Raise e ->
    step {| proc := p; thread := AtSegment frameset; main := m;
            get_frames_calls := n; process_calls := k |}
         {| proc := p; thread := Finished; main := m;
            get_frames_calls := n; process_calls := S k |}
(* the thread: [self._queue.put(Dataset(...))] *)
| step_put : forall p m n k d,
    step {| proc := p; thread := AtPut d; main := m;
            get_frames_calls := n; process_calls := k |}
         {| proc := put_dataset p d; thread := AtTest; main := m;
            get_frames_calls := n; process_calls := k |}
(* the consumer: [processor.get_dataset()] *)
| step_take : forall p t m n k,
    m <> Joining ->
    step {| proc := p; thread := t; main := m;
            get_frames_calls := n; process_calls := k |}
         {| proc := snd (Processor.get_dataset p); thread := t; main := m;
            get_frames_calls := n; process_calls := k |}
(* the owner: [stop()], [self._running = False] *)
| step_stop : forall p t n k,
    step {| proc := p; thread := t; main := Idle;
            get_frames_calls := n; process_calls := k |}
         {| proc := set_running p false; thread := t; main := Joining;
            get_frames_calls := n; process_calls := k |}
(* the owner: [self.join()] returns once the thread is over *)
| step_join : forall p n k,
    step {| proc := p; thread := Finished; main := Joining;
            get_frames_calls := n; process_calls := k |}
         {| proc := p; thread := Finished; main := Stopped;
            get_frames_calls := n; process_calls := k |}
(* the owner: [self.join()] on a thread that was never started *)
| step_join_raise : forall p n k,
    step {| proc := p; thread := Unstarted; main := Joining;
            get_frames_calls := n; process_calls := k |}
         {| proc := p; thread := Unstarted; main := StopRaised;
            get_frames_calls := n; process_calls := k |}
(* the owner: [camera.stop()] after [processor.stop()] *)
| step_close : forall p t n k camera,
    Camera.stop (Processor._camera p) = Ok camera ->
    step {| proc := p; thread := t; main := Stopped;
            get_frames_calls := n; process_calls := k |}
         {| proc := set_camera p camera; thread := t; main := Closed;
            get_frames_calls := n; process_calls := k |}.

(** Zero or more steps. *)
Inductive steps : state -> state -> Prop :=
| steps_refl : forall s, steps s s
| steps_step : forall s1 s2 s3, steps s1 s2 -> step s2 s3 -> steps s1 s3.

Definition reachable (camera : Camera.RealSenseCamera) (s : state) : Prop :=
  steps (initial camera) s.

End WithCollaborators.

End Lifecycle.

(** ** A small world to evaluate the code on

    Frames of two by two pixels.  The pipeline first delivers a pair
    whose depth frame is missing, then usable pairs; the colorizer paints
    the low byte of the sample in the first channel; the rasteriser fills
    the bounding box of a contour; the moments are OpenCV's. *)

Module Examples.

Definition depth0 : DepthFrame :=
  {| depth_units := 1 # 1000;
     depth_data := [[1200; 1300]; [1400; 1500]]%Z |}.

Definition color0 : ColorFrame :=
  {| get_data := [[[10; 20; 30]; [40; 50; 60]];
                  [[70; 80; 90]; [100; 110; 120]]]%Z |}.

Definition pair_at (i : nat) : AlignedFrames :=
  match i with
  | O => {| get_depth_frame := None; get_color_frame := Some color0 |}
  | _ => {| get_depth_frame := Some depth0; get_color_frame := Some color0 |}
  end.

Definition palette (d : DepthFrame) : ndarray :=
  map (map (fun v : Z => [(v mod 256)%Z; 0%Z; 64%Z])) (depth_data d).

Definition cloud (d : DepthFrame) : list vertex :=
  map (fun v : Z => (0, 0, inject_Z v * depth_units d)%Q)
      (concat (depth_data d)).

Definition in_bounding_box (c : contour) (x y : nat) : bool :=
  let xs := map fst c in
  let ys := map snd c in
  match xs, ys with
  | x0 :: _, y0 :: _ =>
      let lo l v0 := fold_left Z.min l v0 in
      let hi l v0 := fold_left Z.max l v0 in
      ((lo xs x0 <=? Z.of_nat x) && (Z.of_nat x <=? hi xs x0)
       && (lo ys y0 <=? Z.of_nat y) && (Z.of_nat y <=? hi ys y0))%Z
  | _, _ => false
  end.

(** The world, given what the model answers. *)
Definition world (answer : ndarray -> predict_output) : Collaborators :=
  {| Frames := AlignedFrames;
     incoming := pair_at;
     align_process := fun f => f;
     colorize := palette;
     calculate := cloud;
     predict := answer;
     filled := in_bounding_box;
     moments := contour_moments |}.

(** A person whose mask is the unit square at the origin. *)
Definition person_square : Detection :=
  {| label := "person";
     mask_xy := [(0, 0); (1, 0); (1, 1); (0, 1)]%Q |}.

(** A chair: not in the allow-list. *)
Definition chair_square : Detection :=
  {| label := "chair";
     mask_xy := [(0, 0); (1, 0); (1, 1); (0, 1)]%Q |}.

(** A person whose mask has collapsed to a segment. *)
Definition person_flat : Detection :=
  {| label := "person";
     mask_xy := [(0, 0); (1, 0)]%Q |}.

(** The model sees one person. *)
Definition sees_person : Collaborators :=
  world (fun _ => Generator [[person_square]]).

(** The model sees nothing: one result, no detection in it. *)
Definition sees_nothing : Collaborators :=
  world (fun _ => Generator [[]]).

Definition camera0 : Camera.RealSenseCamera :=
  {| Camera._pipeline := {| Camera.streaming := true; Camera.delivered := 0 |};
     Camera.depth_scale := 1 # 1000;
     Camera._depth_width := 2;
     Camera._depth_height := 2 |}.

Definition only_person : Segmentation.Segmentation :=
  {| Segmentation._include_labels := ["person"%string] |}.

Definition blank : Processor.ImageData :=
  {| Processor.width := 0; Processor.height := 0;
     Processor.fmt := "RGB"; Processor.data := [] |}.

(** Two datasets that differ in their centroids. *)
Definition dataset_with (cs : list (Z * Z * Z)) : Processor.Dataset :=
  {| Processor.color_image := blank;
     Processor.depth_paletted_image := blank;
     Processor.segmented_image := blank;
     Processor.centroids := cs;
     Processor.pointcloud_vertexes := [];
     Processor.pointcloud_colors := [] |}.

Definition dataset_A : Processor.Dataset := dataset_with [(1, 1, 1000)%Z].
Definition dataset_B : Processor.Dataset := dataset_with [(2, 2, 2000)%Z].

(** The rectangle from (10, 10) to (20, 20). *)
Definition rectangle_10_20 : contour :=
  [(10, 10); (20, 10); (20, 20); (10, 20)]%Z.

End Examples.

(** ** Reading arrays *)

Module Shape.

(** [a[y][x]] *)
Definition pixel_at (a : ndarray) (x y : nat) : option pixel :=
  match nth_error a y with
  | Some row => nth_error row x
  | None => None
  end.

(** An array of [h] rows of [w] entries. *)
Definition has_size {A : Type} (h w : nat) (a : list (list A)) : Prop :=
  length a = h /\ Forall (fun row => length row = w) a.


(** Every pixel of [a] has at most [n] channels. *)
Definition channels_at_most (n : nat) (a : ndarray) : Prop :=
  Forall (Forall (fun px : pixel => length px <= n)) a.

(** The number of channels of every pixel, row by row. *)
Definition shape_of (a : ndarray) : list (list nat) :=
  map (map (@length Z)) a.


End Shape.

(** ** What the overlay shows *)

Module Overlay.

Section WithCollaborators.
Context {C : Collaborators}.

(** Pixel [(x, y)] lies in the filled contour of an allowed detection. *)
Definition painted (seg : Segmentation.Segmentation) (r : Results)
  (x y : nat) : bool :=
  existsb (fun c => filled c x y) (Segmentation.allowed_contours seg r).

End WithCollaborators.

End Overlay.

(** ** The bookkeeping of the two threads *)

Module Accounting.
Import Lifecycle.

(** How the counters and the queue stand, by the place of the thread. *)
Definition accounted (s : state) : Prop :=
  let buffered := Handoff.buffered (Processor._queue (proc s)) in
  match thread s with
  | AtSegment _ =>
      get_frames_calls s = S (process_calls s) /\ buffered <= process_calls s
  | AtPut _ =>
      get_frames_calls s = process_calls s /\ S buffered <= process_calls s
  | Finished =>
      (get_frames_calls s = process_calls s
       \/ get_frames_calls s = S (process_calls s))
      /\ buffered <= process_calls s
  | _ =>
      get_frames_calls s = process_calls s /\ buffered <= process_calls s
  end.

(** The pipeline of the camera of the processor streams. *)
Definition camera_streams (s : state) : Prop :=
  Camera.streaming (Camera._pipeline (Processor._camera (proc s))) = true.

(** The camera is closed only through [step_close]. *)
Definition open_until_closed (s : state) : Prop :=
  main s <> Closed -> camera_streams s.

(** The flag is set although [stop] has cleared it. *)
Definition flag_set_after_stop (s : state) : Prop :=
  main s <> Idle /\ Processor._running (proc s) = true.

End Accounting.

(** ** [app.py] *)

Module App.

Definition REFERENCE_WIDTH : Z := 1920.
Definition REFERENCE_HEIGHT : Z := 1080.
Definition FRUSTRUM_LINES_COLOR : list Z := [127; 127; 127; 16]%Z.

(** The part of [AppWindow] that [on_draw] reads and writes. *)
Record AppWindow : Type := {
  _processor : Processor.Processor;
  _current_dataset : option Processor.Dataset
}.

(** [AppWindow.on_draw], the state it leaves:
    [dataset = self._processor.get_dataset()]
    [if dataset: self._current_dataset = dataset] *)
Definition on_draw (a : AppWindow) : AppWindow :=
  let '(dataset, p) := Processor.get_dataset (_processor a) in
  {| _processor := p;
     _current_dataset :=
       match dataset with
       | Some d => Some d
       | None => _current_dataset a
       end |}.

(** What happens to the window: the processor publishes, or a frame is
    drawn. *)
Inductive event : Type :=
| Published (d : Processor.Dataset)
| Draw.

Definition handle (a : AppWindow) (e : event) : AppWindow :=
  match e with
  | Published d =>
      {| _processor := Lifecycle.put_dataset (_processor a) d;
         _current_dataset := _current_dataset a |}
  | Draw => on_draw a
  end.

Definition play (a : AppWindow) (es : list event) : AppWindow :=
  fold_left handle es a.

(** The datasets the processor published during [es]. *)
Definition published (es : list event) : list Processor.Dataset :=
  flat_map (fun e => match e with Published d => [d] | Draw => [] end) es.

(** The datasets [on_draw] made current during [es], in order. *)
Fixpoint shown (a : AppWindow) (es : list event) : list Processor.Dataset :=
  match es with
  | [] => []
  | e :: es' =>
      match e, fst (Processor.get_dataset (_processor a)) with
      | Draw, Some d => d :: shown (handle a e) es'
      | _, _ => shown (handle a e) es'
      end
  end.

(** The window as [__init__] leaves it. *)
Definition fresh (camera : Camera.RealSenseCamera) : AppWindow :=
  {| _processor := Processor.init camera; _current_dataset := None |}.

(** [pyglet.sprite.Sprite(self._cursor_image, cx, cy, ...)] *)
Record Sprite : Type := {
  sprite_x : Z;
  sprite_y : Z
}.

(** [pyglet.text.Label(text=..., x=..., y=..., anchor_x=..., ...)] *)
Record Label : Type := {
  text : string;
  label_x : Q;
  label_y : Z;
  anchor_x : string;
  anchor_y : string
}.

(** The cursor of a centroid: the centroid moved to the third slot of the
    window, 1280 to the right and 600 up. *)
Definition cursor_of (c : Z * Z * Z) : Sprite :=
  {| sprite_x := (fst (fst c) + 1280)%Z;
     sprite_y := (snd (fst c) + 600)%Z |}.

(** [f"{distance}mm"] *)
Definition distance_text (distance : Z) : string :=
  NilZero.string_of_int (Z.to_int distance) ++ "mm".

Section Labels.
(** [self._cursor_image.width], of an image that is not in the sources *)
Variable cursor_width : Z.
(** [label.content_width], which the font decides *)
Variable content_width : string -> Z.

(** One turn of the loop of [_draw_centroids_labels]. *)
Definition draw_centroid (st : list Sprite * list Label) (c : Z * Z * Z)
  : list Sprite * list Label :=
  let '(cursors, shapes_temp) := st in
  let '(cx, cy, distance) := c in
  let cx := (cx + Z.of_nat Camera.CAPTURE_WIDTH * 2)%Z in
  let cy := (cy + (REFERENCE_HEIGHT - Z.of_nat Camera.CAPTURE_HEIGHT))%Z in
  let cursors := cursors ++ [{| sprite_x := cx; sprite_y := cy |}] in
  if (distance >? 0)%Z then
    let label :=
      {| text := distance_text distance;
         label_x := (inject_Z cx + inject_Z cursor_width / 2 + 2)%Q;
         label_y := (cy + 2)%Z;
         anchor_x := "left";
         anchor_y := "center" |} in
    let label :=
      if (cx >? REFERENCE_WIDTH - content_width (text label))%Z then
        {| text := text label;
           label_x := (inject_Z cx - inject_Z cursor_width / 2 - 2)%Q;
           label_y := label_y label;
           anchor_x := "right";
           anchor_y := anchor_y label |}
      else label in
    (cursors, shapes_temp ++ [label])
  else (cursors, shapes_temp).

(** [AppWindow._draw_centroids_labels]: the cursors and the labels of the
    batch it draws. *)
Definition _draw_centroids_labels (centroids : list (Z * Z * Z))
  : list Sprite * list Label :=
  fold_left draw_centroid centroids ([], []).

End Labels.

(** [range(start, stop, step)] for a positive step. *)
Definition range (start stop step : Z) : list Z :=
  map (fun i => (start + step * Z.of_nat i)%Z)
      (seq 0 (Z.to_nat ((stop - start + step - 1) / step))).

(** What [_compute_frustrum] hands to [shader.vertex_list]. *)
Record VertexList : Type := {
  count : nat;
  position : list Q;
  colors : list Q
}.

Section Frustrum.
(** [self._camera.deproject_pixel_to_point(point, depth)], the SDK's
    deprojection with the intrinsics of the depth stream *)
Variable deproject_pixel_to_point : Z * Z -> Z -> list Q.
(** [self._camera.depth_size] *)
Variable depth_size : Z * Z.

(** The body of the loop over the depths: [get_point] appends the ray to
    the point and returns the point. *)
Definition frustrum_at (coordinates : list (list Q)) (d : Z)
  : list (list Q) :=
  let get_point (coordinates : list (list Q)) (x y : Z) :=
    let p := deproject_pixel_to_point (x, y) d in
    (coordinates ++ [[0; 0; 0]%Q ++ p], p) in
  let '(coordinates, top_left) := get_point coordinates 0%Z 0%Z in
  let '(coordinates, top_right) :=
    get_point coordinates (fst depth_size) 0%Z in
  let '(coordinates, bottom_right) :=
    get_point coordinates (fst depth_size) (snd depth_size) in
  let '(coordinates, bottom_left) :=
    get_point coordinates 0%Z (snd depth_size) in
  let coordinates := coordinates ++ [top_left ++ top_right] in
  let coordinates := coordinates ++ [top_right ++ bottom_right] in
  let coordinates := coordinates ++ [bottom_right ++ bottom_left] in
  let coordinates := coordinates ++ [bottom_left ++ top_left] in
  coordinates.

(** The segments [_compute_frustrum] collects. *)
Definition frustrum_coordinates : list (list Q) :=
  fold_left frustrum_at (range 1 6 2) [].

(** [AppWindow._compute_frustrum] *)
Definition _compute_frustrum : VertexList :=
  let coordinates := frustrum_coordinates in
  let lines_coords_count := length coordinates * 2 in
  {| count := lines_coords_count;
     position := concat coordinates;
     colors :=
       concat (repeat (map (fun c : Z => (inject_Z c / 255)%Q)
                           FRUSTRUM_LINES_COLOR)
                      lines_coords_count) |}.

(** The segments of one depth: the four rays, then the four edges. *)
Definition frustrum_block (d : Z) : list (list Q) :=
  let top_left := deproject_pixel_to_point (0, 0)%Z d in
  let top_right := deproject_pixel_to_point (fst depth_size, 0%Z) d in
  let bottom_right :=
    deproject_pixel_to_point (fst depth_size, snd depth_size) d in
  let bottom_left := deproject_pixel_to_point (0%Z, snd depth_size) d in
  [[0; 0; 0]%Q ++ top_left; [0; 0; 0]%Q ++ top_right;
   [0; 0; 0]%Q ++ bottom_right; [0; 0; 0]%Q ++ bottom_left;
   top_left ++ top_right; top_right ++ bottom_right;
   bottom_right ++ bottom_left; bottom_left ++ top_left].

End Frustrum.

End App.

(** ** More of the small world *)

Module MoreExamples.

(** A camera whose depth scale is zero. *)
Definition camera_zero_scale : Camera.RealSenseCamera :=
  {| Camera._pipeline :=
       {| Camera.streaming := true; Camera.delivered := 0 |};
     Camera.depth_scale := 0;
     Camera._depth_width := 2;
     Camera._depth_height := 2 |}.

(** The frameset of the usable pair of the small world. *)
Definition frameset0 : Camera.Frameset :=
  {| Camera.depth_frame := Examples.depth0;
     Camera.depth_image := flipud (Examples.palette Examples.depth0);
     Camera.color_image := get_data Examples.color0;
     Camera.pointcloud_vertexes :=
       Camera.rows_of 2 2 (Examples.cloud Examples.depth0);
     Camera.pointcloud_colors :=
       Camera.with_alpha (Examples.palette Examples.depth0) |}.

(** A world in which no pair ever aligns: the depth frame is always
    missing. *)
Definition never_aligned : Collaborators :=
  {| Frames := AlignedFrames;
     incoming := fun _ => Examples.pair_at 0;
     align_process := fun f => f;
     colorize := Examples.palette;
     calculate := Examples.cloud;
     predict := fun _ => Generator [[]];
     filled := Examples.in_bounding_box;
     moments := contour_moments |}.

(** A deprojection for the frustum: the pixel scaled by the depth. *)
Definition flat_deproject (point : Z * Z) (depth : Z) : list Q :=
  [inject_Z (fst point * depth); inject_Z (snd point * depth);
   inject_Z depth].

End MoreExamples.

(** * Properties *)

(** ** The result monad *)

Lemma bind_ok_inv :
  forall (A B : Type) (r : result A) (k : A -> result B) (b : B),
    bind r k = Ok b -> exists a, r = Ok a /\ k a = Ok b.
Proof.
  intros A B [a | e] k b H; simpl in H.
  - exists a; split; [reflexivity | exact H].
  - discriminate.
Qed.

Ltac bind_inv H :=
  let a := fresh "a" in
  let Ha := fresh "Ha" in
  apply bind_ok_inv in H; destruct H as (a & Ha & H).

Lemma mapM_ok_Forall2 :
  forall (A B : Type) (f : A -> result B) (l : list A) (bs : list B),
    mapM f l = Ok bs -> Forall2 (fun a b => f a = Ok b) l bs.
Proof.
  intros A B f; induction l as [| a l IH]; intros bs H; simpl in H.
  - inversion H; constructor.
  - bind_inv H. bind_inv H. inversion H; subst.
    constructor; [assumption | apply IH; assumption].
Qed.

(** ** Numbers *)



(** ** The moments of a rectangle *)




(** ** The handoff *)

Module HandoffFacts.
Import Handoff.

Section Queue.
Variable Dataset : Type.
Implicit Types (q : queue Dataset) (d a b : Dataset).

Lemma get_dataset_cons :
  forall d q, get_dataset (d :: q) = (Some d, q).
Proof. reflexivity. Qed.

Lemma get_dataset_put_nonempty :
  forall d q a, get_dataset (put (d :: q) a) = (Some d, put q a).
Proof. reflexivity. Qed.

Lemma take_all_whole :
  forall q, take_all (length q) q = q.
Proof.
  induction q as [| d q IH]; simpl; [reflexivity | now rewrite IH].
Qed.

Lemma buffered_put :
  forall q d, buffered (put q d) = S (buffered q).
Proof.
  intros q d; unfold buffered, put.
  rewrite length_app; simpl; lia.
Qed.

Lemma buffered_take :
  forall q,
    buffered (snd (get_dataset q)) + (if empty q then 0 else 1) = buffered q.
Proof.
  intros [| d q]; simpl; lia.
Qed.

(** C1, as the code has it: two datasets published on an empty handoff
    are both kept, and the takes retrieve them oldest first: the next
    take retrieves A and leaves B, the take after it retrieves B, and
    whatever was buffered before is retrieved before the two. *)
Theorem publish_twice_keeps_both :
  forall a b,
    get_dataset (put (put (new Dataset) a) b) = (Some a, [b])
    /\ get_dataset (snd (get_dataset (put (put (new Dataset) a) b)))
       = (Some b, [])
    /\ forall q, take_all (buffered (put (put q a) b)) (put (put q a) b)
                 = q ++ [a; b].
Proof.
  intros a b; repeat split.
  intros q. unfold buffered. rewrite take_all_whole.
  unfold put. rewrite <- app_assoc. reflexivity.
Qed.

Lemma buffered_run :
  forall ops q,
    buffered (run q ops) + successful_takes q ops
    = buffered q + publishes ops.
Proof.
  induction ops as [| o ops IH]; intros q.
  - simpl. unfold publishes; simpl. lia.
  - destruct o as [d |]; unfold run in *; simpl.
    + specialize (IH (put q d)). rewrite buffered_put in IH.
      unfold publishes in *; simpl. lia.
    + specialize (IH (snd (get_dataset q))).
      pose proof (buffered_take q) as Ht.
      unfold publishes in *; simpl. lia.
Qed.

(** C2, as the code has it: at every instant the handoff buffers the
    datasets published so far minus those taken; each publish adds one,
    whatever is buffered already, so [n] publishes in a row buffer [n]
    datasets. *)
Theorem buffered_counts_publishes_minus_takes :
  (forall ops q,
     buffered (run q ops) + successful_takes q ops
     = buffered q + publishes ops)
  /\ (forall q d, buffered (put q d) = S (buffered q))
  /\ (forall ds,
        buffered (run (new Dataset) (map (@Publish Dataset) ds))
        = length ds).
Proof.
  split; [exact buffered_run | split; [exact buffered_put | ]].
  intros ds.
  pose proof (buffered_run (map (@Publish Dataset) ds) (new Dataset)) as H.
  assert (Ht : forall l q,
             successful_takes q (map (@Publish Dataset) l) = 0).
  { induction l as [| d l IH]; intros q; simpl; [reflexivity | apply IH]. }
  assert (Hp : forall l, publishes (map (@Publish Dataset) l) = length l).
  { unfold publishes. induction l as [| d l IH]; simpl;
      [reflexivity | now rewrite IH]. }
  rewrite Ht, Hp in H. unfold buffered, new in *. simpl in H. lia.
Qed.


End Queue.

(** C1 does not hold of the code: after A then B are published on an empty handoff,
    the next take retrieves A, not B, and A is not lost. *)
Lemma publish_twice_takes_first :
  fst (get_dataset
         (put (put (new Processor.Dataset) Examples.dataset_A)
              Examples.dataset_B))
  = Some Examples.dataset_A
  /\ fst (get_dataset
            (put (put (new Processor.Dataset) Examples.dataset_A)
                 Examples.dataset_B))
     <> Some Examples.dataset_B.
Proof.
  split; [reflexivity | ].
  simpl. intros H. inversion H.
Qed.

(** C2 does not hold of the code: two datasets published and not taken are both
    buffered. *)
Lemma two_publishes_buffer_two :
  buffered (run (new Processor.Dataset)
                [Publish Examples.dataset_A; Publish Examples.dataset_B]) = 2
  /\ ~ buffered (run (new Processor.Dataset)
                   [Publish Examples.dataset_A; Publish Examples.dataset_B])
       <= 1.
Proof.
  split; [reflexivity | ]. simpl. lia.
Qed.

End HandoffFacts.

(** ** The camera *)

Module CameraFacts.
Import Camera.

Lemma zipM_repeat :
  forall (A B D : Type) (f : A -> B -> result D) (g : A -> D) (b : B),
    (forall a d, f a b = Ok d -> d = g a) ->
    forall (l : list A) (n : nat) (ds : list D),
      zipM f l (repeat b n) = Ok ds -> ds = map g l.
Proof.
  intros A B D f g b Hf; induction l as [| a l IH]; intros n ds H.
  - destruct n; simpl in H; [inversion H; reflexivity | discriminate].
  - destruct n; simpl in H; [discriminate | ].
    bind_inv H. bind_inv H. inversion H; subst; simpl.
    f_equal; [apply Hf; assumption | eapply IH; eassumption].
Qed.

Lemma concatenate_ones :
  forall (a colors : ndarray) (h w : nat),
    concatenate_last a (ones_255 h w) = Ok colors -> colors = with_alpha a.
Proof.
  intros a colors h w H. unfold concatenate_last, ones_255 in H.
  unfold with_alpha.
  eapply zipM_repeat; [ | exact H].
  intros row d Hrow. simpl in Hrow.
  eapply zipM_repeat; [ | exact Hrow].
  intros px d' Hpx. inversion Hpx. reflexivity.
Qed.

Lemma with_alpha_last :
  forall a, Forall (Forall (fun px : pixel => last px 0%Z = 255%Z))
                   (with_alpha a).
Proof.
  intros a. unfold with_alpha.
  apply Forall_map, Forall_forall; intros row _.
  apply Forall_map, Forall_forall; intros px _.
  apply last_last.
Qed.

Lemma with_alpha_removelast :
  forall a, map (map (@removelast Z)) (with_alpha a) = a.
Proof.
  intros a. unfold with_alpha. rewrite map_map.
  rewrite <- (map_id a) at 2. apply map_ext; intros row.
  rewrite map_map. rewrite <- (map_id row) at 2.
  apply map_ext; intros px. apply removelast_last.
Qed.

Section WithCollaborators.
Context {C : Collaborators}.

Lemma build_frameset_fields :
  forall cam d c fs,
    build_frameset cam d c = Ok fs ->
    depth_frame fs = d
    /\ color_image fs = get_data c
    /\ depth_image fs = flipud (colorize d)
    /\ pointcloud_colors fs = with_alpha (colorize d).
Proof.
  intros cam d c fs H. unfold build_frameset in H.
  bind_inv H. bind_inv H. inversion H; subst; simpl.
  apply concatenate_ones in Ha. subst. repeat split.
Qed.

Lemma advance_0 :
  forall cam, streaming (_pipeline cam) = true -> advance cam 0 = cam.
Proof.
  intros [[s n] ds w h] H; simpl in H; subst.
  unfold advance, with_pipeline; simpl. rewrite Nat.add_0_r. reflexivity.
Qed.

(** One iteration of the loop on a usable pair. *)
Lemma get_frames_usable :
  forall fuel cam d c,
    streaming (_pipeline cam) = true ->
    get_depth_frame (aligned_at (delivered (_pipeline cam))) = Some d ->
    get_color_frame (aligned_at (delivered (_pipeline cam))) = Some c ->
    get_frames (S fuel) cam
    = Some (fs <- build_frameset (advance cam 1) d c ;;
            Ok (fs, advance cam 1)).
Proof.
  intros fuel cam d c Hs Hd Hc. simpl.
  unfold wait_for_frames. rewrite Hs.
  unfold aligned_at in Hd, Hc. rewrite Hd, Hc.
  unfold advance. rewrite Nat.add_1_r. reflexivity.
Qed.

(** One iteration of the loop on a pair that is not usable. *)
Lemma get_frames_unusable :
  forall fuel cam,
    streaming (_pipeline cam) = true ->
    valid_pair (aligned_at (delivered (_pipeline cam))) = false ->
    get_frames (S fuel) cam = get_frames fuel (advance cam 1).
Proof.
  intros fuel cam Hs Hv. simpl.
  unfold wait_for_frames. rewrite Hs.
  unfold valid_pair, aligned_at in Hv.
  unfold advance. rewrite Nat.add_1_r.
  destruct (get_depth_frame (align_process (incoming (delivered (_pipeline cam)))));
    destruct (get_color_frame (align_process (incoming (delivered (_pipeline cam)))));
    try discriminate; reflexivity.
Qed.

Lemma advance_advance :
  forall cam j k, advance (advance cam j) k = advance cam (j + k).
Proof.
  intros cam j k. unfold advance, with_pipeline; simpl.
  rewrite Nat.add_assoc. reflexivity.
Qed.

Lemma valid_pair_cases :
  forall a,
    valid_pair a = false
    \/ exists d c, get_depth_frame a = Some d /\ get_color_frame a = Some c.
Proof.
  intros a. unfold valid_pair.
  destruct (get_depth_frame a) as [d |]; [ | left; reflexivity].
  destruct (get_color_frame a) as [c |]; [ | left; reflexivity].
  right; exists d, c; split; reflexivity.
Qed.

(** Whatever [get_frames] answers was built from the first usable pair. *)
Lemma get_frames_sound :
  forall fuel cam r,
    streaming (_pipeline cam) = true ->
    get_frames fuel cam = Some r ->
    exists k d c,
      first_usable_at cam k d c
      /\ r = (fs <- build_frameset (advance cam (S k)) d c ;;
              Ok (fs, advance cam (S k))).
Proof.
  induction fuel as [| fuel IH]; intros cam r Hs H; [discriminate | ].
  destruct (valid_pair_cases (aligned_at (delivered (_pipeline cam))))
    as [Hv | (d & c & Hd & Hc)].
  - rewrite (get_frames_unusable fuel cam Hs Hv) in H.
    apply IH in H; [ | reflexivity].
    destruct H as (k & d & c & (Hbefore & Hd & Hc) & Hr).
    simpl in Hbefore, Hd, Hc.
    exists (S k), d, c. split.
    + repeat split.
      * intros [| i] Hi.
        -- rewrite Nat.add_0_r. exact Hv.
        -- replace (delivered (_pipeline cam) + S i)
             with (delivered (_pipeline cam) + 1 + i) by lia.
           apply Hbefore. lia.
      * replace (delivered (_pipeline cam) + S k)
          with (delivered (_pipeline cam) + 1 + k) by lia. exact Hd.
      * replace (delivered (_pipeline cam) + S k)
          with (delivered (_pipeline cam) + 1 + k) by lia. exact Hc.
    + rewrite advance_advance in Hr. exact Hr.
  - rewrite (get_frames_usable fuel cam Hs Hd Hc) in H.
    inversion H; subst.
    exists 0, d, c. split; [ | reflexivity].
    repeat split.
    + intros i Hi; lia.
    + rewrite Nat.add_0_r; exact Hd.
    + rewrite Nat.add_0_r; exact Hc.
Qed.

(** With fuel for the pairs to skip, [get_frames] answers. *)
Lemma get_frames_complete :
  forall k cam d c fuel,
    streaming (_pipeline cam) = true ->
    first_usable_at cam k d c ->
    k < fuel ->
    get_frames fuel cam
    = Some (fs <- build_frameset (advance cam (S k)) d c ;;
            Ok (fs, advance cam (S k))).
Proof.
  induction k as [| k IH]; intros cam d c fuel Hs (Hbefore & Hd & Hc) Hf.
  - destruct fuel as [| fuel]; [lia | ].
    rewrite Nat.add_0_r in Hd, Hc.
    apply get_frames_usable; assumption.
  - destruct fuel as [| fuel]; [lia | ].
    assert (Hv : valid_pair (aligned_at (delivered (_pipeline cam))) = false).
    { specialize (Hbefore 0). rewrite Nat.add_0_r in Hbefore.
      apply Hbefore. lia. }
    assert (Hnext : first_usable_at (advance cam 1) k d c).
    { unfold first_usable_at; simpl. repeat split.
      - intros i Hi.
        replace (delivered (_pipeline cam) + 1 + i)
          with (delivered (_pipeline cam) + S i) by lia.
        apply Hbefore. lia.
      - replace (delivered (_pipeline cam) + 1 + k)
          with (delivered (_pipeline cam) + S k) by lia. exact Hd.
      - replace (delivered (_pipeline cam) + 1 + k)
          with (delivered (_pipeline cam) + S k) by lia. exact Hc. }
    rewrite (get_frames_unusable fuel cam Hs Hv).
    rewrite (IH (advance cam 1) d c fuel eq_refl Hnext); [ | lia].
    rewrite advance_advance. reflexivity.
Qed.

Lemma get_frames_answer_streaming :
  forall fuel cam fs cam',
    get_frames fuel cam = Some (Ok (fs, cam')) ->
    streaming (_pipeline cam) = true.
Proof.
  intros [| fuel] cam fs cam' H; [discriminate | ].
  simpl in H. unfold wait_for_frames in H.
  destruct (streaming (_pipeline cam)); [reflexivity | discriminate].
Qed.

(** C8: on a streaming camera, whatever [get_frames] answers was built
    from the first pair whose two frames are there, the pairs before it
    having been dropped; a frameset it returns holds the depth frame and
    the colour image of that pair; and when such a pair comes,
    [get_frames] answers from it, however many unusable pairs precede it. *)
Theorem get_frames_skips_unusable_pairs :
  forall fuel cam,
    streaming (_pipeline cam) = true ->
    (forall r, get_frames fuel cam = Some r ->
       exists k d c,
         first_usable_at cam k d c
         /\ r = (fs <- build_frameset (advance cam (S k)) d c ;;
                 Ok (fs, advance cam (S k))))
    /\ (forall fs cam', get_frames fuel cam = Some (Ok (fs, cam')) ->
          exists k d c,
            first_usable_at cam k d c
            /\ depth_frame fs = d
            /\ color_image fs = get_data c
            /\ cam' = advance cam (S k))
    /\ (forall k d c, first_usable_at cam k d c -> k < fuel ->
          get_frames fuel cam
          = Some (fs <- build_frameset (advance cam (S k)) d c ;;
                  Ok (fs, advance cam (S k)))).
Proof.
  intros fuel cam Hs. split; [ | split].
  - intros r H. eapply get_frames_sound; eassumption.
  - intros fs cam' H.
    destruct (get_frames_sound fuel cam Hs H) as (k & d & c & Hfirst & Hr).
    symmetry in Hr. bind_inv Hr. inversion Hr; subst.
    destruct (build_frameset_fields _ _ _ Ha) as (Hd & Hc & _).
    exists k, d, c. repeat split; try assumption; apply Hfirst.
  - intros k d c Hfirst Hk. apply get_frames_complete; assumption.
Qed.

(** C10: the colours of the point cloud of a frameset [get_frames]
    returns are the colorized depth frame with one more channel, 255
    everywhere; they do not depend on the colour frame. *)
Theorem pointcloud_colors_opaque_depth_palette :
  forall fuel cam fs cam',
    get_frames fuel cam = Some (Ok (fs, cam')) ->
    pointcloud_colors fs = with_alpha (colorize (depth_frame fs))
    /\ Forall (Forall (fun px : pixel => last px 0%Z = 255%Z))
              (pointcloud_colors fs)
    /\ map (map (@removelast Z)) (pointcloud_colors fs)
       = colorize (depth_frame fs)
    /\ (forall c fs2, build_frameset cam' (depth_frame fs) c = Ok fs2 ->
          pointcloud_colors fs2 = pointcloud_colors fs).
Proof.
  intros fuel cam fs cam' H.
  pose proof (get_frames_answer_streaming _ _ H) as Hs.
  destruct (get_frames_sound fuel cam Hs H) as (k & d & c & _ & Hr).
  symmetry in Hr. bind_inv Hr. inversion Hr; subst.
  destruct (build_frameset_fields _ _ _ Ha) as (Hd & _ & _ & Hcolors).
  subst d. rewrite Hcolors. repeat split.
  - apply with_alpha_last.
  - apply with_alpha_removelast.
  - intros c2 fs2 H2.
    destruct (build_frameset_fields _ _ _ H2) as (_ & _ & _ & H2c).
    exact H2c.
Qed.

End WithCollaborators.

(** C9, as the code has it: [stop] on a camera that streams releases the
    pipeline and leaves the rest of the camera as it was; it keeps no
    record of being closed, so a second [stop] goes to the SDK again,
    which raises. *)
Theorem stop_once_then_raises :
  forall cam,
    streaming (_pipeline cam) = true ->
    exists cam',
      stop cam = Ok cam'
      /\ streaming (_pipeline cam') = false
      /\ depth_scale cam' = depth_scale cam
      /\ stop cam' = Raise RuntimeError.
Proof.
  intros cam Hs.
  exists (with_pipeline cam
            {| streaming := false; delivered := delivered (_pipeline cam) |}).
  unfold stop, pipeline_stop. rewrite Hs. simpl. repeat split.
Qed.

Lemma stop_once_then_raises_witness :
  streaming (_pipeline Examples.camera0) = true
  /\ exists cam',
       stop Examples.camera0 = Ok cam'
       /\ streaming (_pipeline cam') = false
       /\ depth_scale cam' = depth_scale Examples.camera0
       /\ stop cam' = Raise RuntimeError.
Proof.
  split; [reflexivity | apply (stop_once_then_raises Examples.camera0)].
  reflexivity.
Defined.

(** C9 does not hold of the code: the second [stop] of a camera raises. *)
Lemma stop_twice_raises :
  stop Examples.camera0
  = Ok (with_pipeline Examples.camera0
          {| streaming := false; delivered := 0 |})
  /\ (cam' <- stop Examples.camera0 ;; stop cam') = Raise RuntimeError.
Proof.
  split; reflexivity.
Qed.

Lemma get_frames_skips_unusable_pairs_witness :
  streaming (_pipeline Examples.camera0) = true
  /\ (forall k d c,
        @first_usable_at Examples.sees_nothing Examples.camera0 k d c ->
        k < 3 ->
        @get_frames Examples.sees_nothing 3 Examples.camera0
        = Some (fs <- @build_frameset Examples.sees_nothing
                        (advance Examples.camera0 (S k)) d c ;;
                Ok (fs, advance Examples.camera0 (S k)))).
Proof.
  split; [reflexivity | ].
  apply (@get_frames_skips_unusable_pairs Examples.sees_nothing 3
           Examples.camera0).
  reflexivity.
Defined.

(** The first pair of the example world is dropped, the second used. *)
Example get_frames_example :
  @first_usable_at Examples.sees_nothing Examples.camera0 1
     Examples.depth0 Examples.color0
  /\ exists fs,
       @get_frames Examples.sees_nothing 3 Examples.camera0
       = Some (Ok (fs, advance Examples.camera0 2))
       /\ depth_frame fs = Examples.depth0
       /\ color_image fs = get_data Examples.color0.
Proof.
  split.
  - repeat split. intros [| i] Hi; [reflexivity | lia].
  - eexists. split; [vm_compute; reflexivity | split; reflexivity].
Qed.

Lemma pointcloud_colors_opaque_depth_palette_witness :
  exists fs cam',
    @get_frames Examples.sees_nothing 3 Examples.camera0 = Some (Ok (fs, cam'))
    /\ pointcloud_colors fs
       = with_alpha (@colorize Examples.sees_nothing (depth_frame fs))
    /\ Forall (Forall (fun px : pixel => last px 0%Z = 255%Z))
              (pointcloud_colors fs).
Proof.
  destruct (@get_frames Examples.sees_nothing 3 Examples.camera0)
    as [[[fs cam'] | e] | ] eqn:E; try discriminate.
  exists fs, cam'. split; [reflexivity | ].
  destruct (@pointcloud_colors_opaque_depth_palette Examples.sees_nothing
              3 Examples.camera0 fs cam' E) as (H1 & H2 & _).
  split; assumption.
Defined.

End CameraFacts.

(** ** The segmentation bridge *)

Module SegmentationFacts.
Import Segmentation.

Lemma add_weighted_channel_zero :
  forall c, uint8 c -> add_weighted_channel c 0 = c.
Proof.
  intros c [Hlo Hhi]. unfold add_weighted_channel, round_half_even_halves.
  rewrite Z.add_0_r.
  replace (Z.even (2 * c)) with true
    by (symmetry; rewrite Z.even_mul; reflexivity).
  replace (2 * c / 2)%Z with c
    by (symmetry; rewrite Z.mul_comm; apply Z.div_mul; lia).
  unfold saturate_u8. lia.
Qed.

Lemma zip_with_map_r :
  forall (A B D : Type) (f : A -> B -> D) (g : A -> B) (l : list A),
    zip_with f l (map g l) = map (fun a => f a (g a)) l.
Proof.
  induction l as [| a l IH]; simpl; [reflexivity | now rewrite IH].
Qed.

Lemma map_id_Forall :
  forall (A : Type) (P : A -> Prop) (f : A -> A) (l : list A),
    (forall a, P a -> f a = a) -> Forall P l -> map f l = l.
Proof.
  intros A P f l Hf H; induction H as [| a l Ha _ IH]; simpl.
  - reflexivity.
  - rewrite Hf, IH; auto.
Qed.

(** Blending an image with the all-zero layer gives the image back. *)
Lemma addWeighted_zeros :
  forall a, uint8_image a -> addWeighted a (zeros_like a) = a.
Proof.
  intros a Ha. unfold addWeighted, zeros_like.
  rewrite zip_with_map_r.
  apply map_id_Forall with (P := Forall (Forall uint8)); [ | exact Ha].
  intros row Hrow. rewrite zip_with_map_r.
  apply map_id_Forall with (P := Forall uint8); [ | exact Hrow].
  intros px Hpx. rewrite zip_with_map_r.
  apply map_id_Forall with (P := uint8); [ | exact Hpx].
  apply add_weighted_channel_zero.
Qed.

Section WithCollaborators.
Context {C : Collaborators}.

Lemma paint_loop :
  forall seg r img cs,
    fold_left
      (fun (st : ndarray * list contour) (c : Detection) =>
         if negb (label_in (label c) (_include_labels seg)) then st
         else
           (drawContours (fst st) (to_contour (mask_xy c)),
            snd st ++ [to_contour (mask_xy c)]))
      r (img, cs)
    = (fold_left drawContours (allowed_contours seg r) img,
       cs ++ allowed_contours seg r).
Proof.
  intros seg; induction r as [| c r IH]; intros img cs; simpl.
  - rewrite app_nil_r. reflexivity.
  - unfold allowed_contours in *; simpl.
    destruct (label_in (label c) (_include_labels seg)); simpl.
    + rewrite IH. rewrite <- app_assoc. reflexivity.
    + apply IH.
Qed.

(** The first loop paints and collects the allowed contours, in order. *)
Lemma paint_allowed :
  forall seg r img,
    paint seg r img
    = (fold_left drawContours (allowed_contours seg r) img,
       allowed_contours seg r).
Proof.
  intros seg r img. unfold paint. apply paint_loop.
Qed.

(** The centroids the second loop appends for a list of contours. *)
Lemma collect_spec :
  forall depth cs acc out,
    collect depth cs acc = Ok out ->
    exists new,
      out = acc ++ new
      /\ map pixel_of new
         = map (fun k => (py_int (fst (moment_centroid k)),
                          py_int (snd (moment_centroid k))))
               (filter (fun k => negb (degenerate k)) cs)
      /\ Forall (fun c => get_distance depth (fst (fst c)) (snd (fst c))
                          = Ok (snd c)) new.
Proof.
  intros depth; induction cs as [| k cs IH]; intros acc out H; simpl in H.
  - inversion H; subst. exists []. rewrite app_nil_r.
    repeat split; constructor.
  - unfold degenerate, moment_centroid in *; simpl.
    destruct (Qeq_bool (m00 (moments k)) 0); simpl in H |- *.
    + apply IH; assumption.
    + bind_inv H. apply IH in H. destruct H as (new & Hout & Hpix & Hdist).
      exists ((py_int (m10 (moments k) / m00 (moments k)),
               py_int (m01 (moments k) / m00 (moments k)), a) :: new).
      repeat split.
      * rewrite Hout, <- app_assoc. reflexivity.
      * simpl. rewrite Hpix. reflexivity.
      * constructor; [exact Ha | exact Hdist].
Qed.

(** What an answer of [process] is made of. *)
Lemma process_ok_inv :
  forall seg color depth img cs,
    process seg color depth = Ok (img, cs) ->
    (truthy (predict color) = false /\ img = zeros_like color /\ cs = [])
    \/ (exists r rest,
          truthy (predict color) = true
          /\ items_of (predict color) = r :: rest
          /\ img = addWeighted color
                     (fold_left drawContours (allowed_contours seg r)
                                (zeros_like color))
          /\ collect depth (allowed_contours seg r) [] = Ok cs).
Proof.
  intros seg color depth img cs H. unfold process in H.
  destruct (truthy (predict color)).
  - right. destruct (items_of (predict color)) as [| r rest]; [discriminate | ].
    rewrite paint_allowed in H. bind_inv H. inversion H; subst.
    exists r, rest. repeat split. exact Ha.
  - left. inversion H; subst. repeat split.
Qed.

(** Every centroid of an answer carries what the depth frame reads at
    its pixel. *)
Lemma process_distances :
  forall seg color depth img cs,
    process seg color depth = Ok (img, cs) ->
    Forall (fun c => get_distance depth (fst (fst c)) (snd (fst c))
                     = Ok (snd c)) cs.
Proof.
  intros seg color depth img cs H.
  apply process_ok_inv in H.
  destruct H as [(_ & _ & Hcs) | (r & rest & _ & _ & _ & Hc)].
  - subst cs. constructor.
  - apply collect_spec in Hc. destruct Hc as (new & Hout & _ & Hdist).
    simpl in Hout. subst cs. exact Hdist.
Qed.

(** When the answer of the model is falsy, [process] returns the zeroed
    image and no centroid. *)
Lemma process_falsy :
  forall seg color depth,
    truthy (predict color) = false ->
    process seg color depth = Ok (zeros_like color, []).
Proof.
  intros seg color depth H. unfold process. rewrite H. reflexivity.
Qed.

(** C4, as the code has it: when the result of the model holds no
    detection with an allowed label, [process] does not fail and returns
    the colour image itself, blended with a layer that stayed zero, and
    no centroid. *)
Theorem process_without_detections :
  forall seg color depth r rest,
    truthy (predict color) = true ->
    items_of (predict color) = r :: rest ->
    allowed_contours seg r = [] ->
    uint8_image color ->
    process seg color depth = Ok (color, []).
Proof.
  intros seg color depth r rest Ht Hi Hnone Hu.
  unfold process. rewrite Ht, Hi, paint_allowed, Hnone. simpl.
  rewrite addWeighted_zeros by assumption. reflexivity.
Qed.


End WithCollaborators.

Lemma uint8_color0 : uint8_image (get_data Examples.color0).
Proof.
  unfold uint8_image, uint8; simpl.
  repeat (constructor; try lia).
Qed.

(** C4 does not hold of the code: the model returns one result with no detection
    in it, and the overlay [process] returns is the colour image, not the
    zeroed image. *)
Lemma process_no_detection_returns_color_image :
  concat (items_of (@predict Examples.sees_nothing
                      (get_data Examples.color0))) = []
  /\ @process Examples.sees_nothing Examples.only_person
        (get_data Examples.color0) Examples.depth0
     = Ok (get_data Examples.color0, [])
  /\ @process Examples.sees_nothing Examples.only_person
        (get_data Examples.color0) Examples.depth0
     <> Ok (zeros_like (get_data Examples.color0), []).
Proof.
  split; [reflexivity | split; [reflexivity | ]].
  intros H. vm_compute in H. discriminate H.
Qed.

Lemma process_without_detections_witness :
  let sees_chair :=
    Examples.world (fun _ => Generator [[Examples.chair_square]]) in
  let color := get_data Examples.color0 in
  truthy (@predict sees_chair color) = true
  /\ items_of (@predict sees_chair color) = [[Examples.chair_square]]
  /\ @allowed_contours Examples.only_person [Examples.chair_square] = []
  /\ uint8_image color
  /\ @process sees_chair Examples.only_person color Examples.depth0
     = Ok (color, []).
Proof.
  intros sees_chair color.
  split; [reflexivity | ]. split; [reflexivity | ].
  split; [reflexivity | ]. split; [exact uint8_color0 | ].
  apply (@process_without_detections sees_chair Examples.only_person color
           Examples.depth0 [Examples.chair_square] []).
  - reflexivity.
  - reflexivity.
  - reflexivity.
  - exact uint8_color0.
Defined.



(** A flat mask and a chair give no centroid; the person after them does. *)
Example process_skips_flat_and_chair :
  exists img,
    @process
      (Examples.world
         (fun _ => Generator [[Examples.person_flat; Examples.chair_square;
                               Examples.person_square]]))
      Examples.only_person (get_data Examples.color0) Examples.depth0
    = Ok (img, [(0%Z, 0%Z, (1200 # 1000)%Q)]).
Proof.
  eexists. vm_compute. reflexivity.
Qed.

(** The rectangle from (10, 10) to (20, 20): its centre is (15, 15). *)
Example rectangle_10_20_centroid :
  let m := contour_moments Examples.rectangle_10_20 in
  (py_int (m10 m / m00 m), py_int (m01 m / m00 m)) = (15, 15)%Z.
Proof. reflexivity. Qed.

End SegmentationFacts.

(** ** The processor *)

Module ProcessorFacts.
Import Processor.

Lemma py_div_ok :
  forall a b q, py_div a b = Ok q -> ~ (b == 0)%Q /\ q = (a / b)%Q.
Proof.
  intros a b q H. unfold py_div in H.
  destruct (Qeq_bool b 0) eqn:E; [discriminate | ].
  inversion H; subst. split; [ | reflexivity].
  intros Hb. apply Qeq_bool_iff in Hb. congruence.
Qed.

Lemma to_millimeters_ok :
  forall scale c out,
    to_millimeters scale c = Ok out ->
    ~ (scale == 0)%Q
    /\ out = (fst (fst c), snd (fst c), py_int (snd c / scale)).
Proof.
  intros scale [[c0 c1] c2] out H. unfold to_millimeters in H.
  bind_inv H. apply py_div_ok in Ha. destruct Ha as (Hs & Hq).
  inversion H; subst. split; [assumption | reflexivity].
Qed.

Lemma Forall2_Forall_r :
  forall (A B : Type) (P : A -> Prop) (R : A -> B -> Prop) (Q : B -> Prop),
    (forall a b, P a -> R a b -> Q b) ->
    forall l m, Forall2 R l m -> Forall P l -> Forall Q m.
Proof.
  intros A B P R Q H l m H2; induction H2 as [| a b l m Hab _ IH];
    intros HP; constructor; inversion HP; subst; eauto.
Qed.

Section WithCollaborators.
Context {C : Collaborators}.

(** The distance of a centroid of a dataset, from the frameset it was
    assembled from. *)
Lemma assemble_centroids :
  forall seg camera frameset d,
    assemble seg camera frameset = Ok d ->
    Forall
      (fun c : Z * Z * Z =>
         exists sample,
           get_distance (Camera.depth_frame frameset)
                        (fst (fst c)) (snd (fst c)) = Ok sample
           /\ ~ (Camera.depth_scale camera == 0)%Q
           /\ snd c = py_int (sample / Camera.depth_scale camera))
      (centroids d)
    /\ pointcloud_colors d = Camera.pointcloud_colors frameset
    /\ pointcloud_vertexes d = Camera.pointcloud_vertexes frameset.
Proof.
  intros seg camera frameset d H. unfold assemble in H.
  bind_inv H. destruct a as [img cs]. bind_inv H.
  inversion H; subst; simpl. split; [ | split; reflexivity].
  apply SegmentationFacts.process_distances in Ha.
  apply mapM_ok_Forall2 in Ha0.
  eapply Forall2_Forall_r; [ | exact Ha0 | exact Ha].
  intros c out Hc Hout. simpl in Hc.
  apply to_millimeters_ok in Hout. destruct Hout as (Hs & Hout).
  subst out; simpl. exists (snd c). repeat split; assumption.
Qed.

Lemma _process_frame_inv :
  forall fuel p p',
    _process_frame fuel p = Some (Ok p') ->
    exists frameset d,
      Camera.get_frames fuel (_camera p) = Some (Ok (frameset, _camera p'))
      /\ assemble (_segmentation p) (_camera p') frameset = Ok d
      /\ _queue p' = Handoff.put (_queue p) d
      /\ _running p' = _running p.
Proof.
  intros fuel p p' H. unfold _process_frame in H.
  destruct (Camera.get_frames fuel (_camera p))
    as [[[frameset camera] | e] | ]; try discriminate.
  inversion H as [H']. bind_inv H'. inversion H'; subst; simpl.
  exists frameset, a. repeat split. assumption.
Qed.


End WithCollaborators.


(** The end-to-end scenario: one person, whose centroid pixel reads the
    sample 1200 at depth unit 1/1000; the published distance is 1200. *)
Example end_to_end_distance :
  exists p' d,
    @_process_frame Examples.sees_person 3 (init Examples.camera0)
    = Some (Ok p')
    /\ _queue p' = [d]
    /\ centroids d = [(0, 0, 1200)%Z]
    /\ get_distance Examples.depth0 0 0 = Ok (1200 # 1000)%Q
    /\ py_int ((1200 # 1000) / (1 # 1000)) = 1200%Z.
Proof.
  eexists. eexists. split; [vm_compute; reflexivity | ].
  repeat split.
Qed.

End ProcessorFacts.

(** ** Shutdown *)

Module LifecycleFacts.
Import Lifecycle.

Section WithCollaborators.
Context {C : Collaborators}.

Lemma steps_trans :
  forall s1 s2 s3, steps s1 s2 -> steps s2 s3 -> steps s1 s3.
Proof.
  intros s1 s2 s3 H12 H23; induction H23 as [| s2 s3 s4 _ IH Hstep].
  - exact H12.
  - eapply steps_step; [apply IH; exact H12 | exact Hstep].
Qed.

Lemma steps_cons :
  forall s1 s2 s3, step s1 s2 -> steps s2 s3 -> steps s1 s3.
Proof.
  intros s1 s2 s3 H12 H23.
  eapply steps_trans; [ | exact H23].
  eapply steps_step; [apply steps_refl | exact H12].
Qed.

Lemma step_joined :
  forall s s', step s s' -> joined s -> joined s'.
Proof.
  intros s s' Hstep Hinv; unfold joined, stop_returned in *;
    destruct Hstep; simpl in *; intros [Hm | Hm];
    try discriminate Hm; try reflexivity;
    try (subst; (discriminate (Hinv (or_introl eq_refl))
                 || discriminate (Hinv (or_intror eq_refl))));
    try (subst; (exact (Hinv (or_introl eq_refl))
                 || exact (Hinv (or_intror eq_refl)))).
Qed.

Lemma reachable_joined :
  forall camera s, reachable camera s -> joined s.
Proof.
  intros camera s H; unfold reachable in H.
  remember (initial camera) as s0 eqn:E.
  induction H as [s | s1 s2 s3 _ IH Hstep].
  - subst s. intros [Hm | Hm]; discriminate Hm.
  - eapply step_joined; [exact Hstep | apply IH; exact E].
Qed.

(** Once the thread is over it stays so, and calls nothing. *)
Lemma step_after_finished :
  forall s s',
    step s s' -> thread s = Finished ->
    thread s' = Finished
    /\ get_frames_calls s' = get_frames_calls s
    /\ process_calls s' = process_calls s.
Proof.
  intros s s' Hstep Hf; destruct Hstep; simpl in *;
    try discriminate Hf; repeat split; assumption.
Qed.

Lemma steps_after_finished :
  forall s s',
    steps s s' -> thread s = Finished ->
    thread s' = Finished
    /\ get_frames_calls s' = get_frames_calls s
    /\ process_calls s' = process_calls s.
Proof.
  intros s s' H Hf; induction H as [s | s1 s2 s3 _ IH Hstep].
  - repeat split; assumption.
  - destruct (IH Hf) as (Ht & Hg & Hp).
    destruct (step_after_finished Hstep Ht) as (Ht' & Hg' & Hp').
    repeat split; congruence.
Qed.

(** The steps of one turn of the loop are [_process_frame]. *)
Lemma iteration_is_process_frame :
  forall fuel p p' m n k,
    Processor._process_frame fuel p = Some (Ok p') ->
    steps {| proc := p; thread := AtGetFrames; main := m;
             get_frames_calls := n; process_calls := k |}
          {| proc := p'; thread := AtTest; main := m;
             get_frames_calls := S n; process_calls := S k |}.
Proof.
  intros fuel p p' m n k H.
  unfold Processor._process_frame in H.
  destruct (Camera.get_frames fuel (Processor._camera p))
    as [[[frameset camera] | e] | ] eqn:Hg; try discriminate.
  inversion H as [H']. bind_inv H'. inversion H'; subst.
  eapply steps_cons; [eapply step_get_frames; exact Hg | ].
  eapply steps_cons; [eapply step_segment; exact Ha | ].
  eapply steps_cons; [apply step_put | ].
  apply steps_refl.
Qed.

(** C3: in every state the two threads can reach in which [stop] has
    returned, the background thread is over; and whatever happens from
    there on, closing the camera included, it stays over and the numbers
    of [get_frames] calls and of segmentation calls do not change. *)
Theorem no_calls_after_stop_returns :
  forall camera s,
    reachable camera s ->
    stop_returned s ->
    thread s = Finished
    /\ forall s',
         steps s s' ->
         thread s' = Finished
         /\ get_frames_calls s' = get_frames_calls s
         /\ process_calls s' = process_calls s.
Proof.
  intros camera s Hr Hs.
  pose proof (reachable_joined Hr Hs) as Hf.
  split; [exact Hf | ].
  intros s' H. apply steps_after_finished; assumption.
Qed.

End WithCollaborators.

(** A run of the example world: start, one turn of the loop, [stop]. *)
Lemma example_run :
  exists s,
    @reachable Examples.sees_person Examples.camera0 s
    /\ main s = Stopped
    /\ get_frames_calls s = 1
    /\ process_calls s = 1
    /\ Handoff.buffered (Processor._queue (proc s)) = 1.
Proof.
  eexists. split.
  - unfold reachable, initial.
    eapply steps_cons; [apply step_start | ].
    eapply steps_cons; [apply step_run | ].
    eapply steps_cons; [apply step_loop; reflexivity | ].
    eapply steps_cons;
      [eapply step_get_frames with (fuel := 3); reflexivity | ].
    eapply steps_cons; [eapply step_segment; reflexivity | ].
    eapply steps_cons; [apply step_put | ].
    eapply steps_cons; [apply step_stop | ].
    eapply steps_cons; [apply step_exit; reflexivity | ].
    eapply steps_cons; [apply step_join | ].
    apply steps_refl.
  - repeat split.
Defined.

Lemma no_calls_after_stop_returns_witness :
  exists s,
    @reachable Examples.sees_person Examples.camera0 s
    /\ stop_returned s
    /\ thread s = Finished
    /\ forall s',
         @steps Examples.sees_person s s' ->
         thread s' = Finished
         /\ get_frames_calls s' = get_frames_calls s
         /\ process_calls s' = process_calls s.
Proof.
  destruct example_run as (s & Hr & Hm & _).
  exists s.
  assert (Hs : stop_returned s) by (left; exact Hm).
  split; [exact Hr | split; [exact Hs | ]].
  apply (@no_calls_after_stop_returns Examples.sees_person
           Examples.camera0 s Hr Hs).
Defined.

End LifecycleFacts.

(** ** The size of what the camera returns *)

Module ShapeFacts.
Import Shape Camera.



Lemma zipM_repeat_length :
  forall (A B D : Type) (f : A -> B -> result D) (b : B) (l : list A)
         (n : nat) (ds : list D),
    zipM f l (repeat b n) = Ok ds ->
    length l = n /\ Forall (fun a => exists d, f a b = Ok d) l.
Proof.
  intros A B D f b; induction l as [| a l IH]; intros n ds H.
  - destruct n; simpl in H; [split; [reflexivity | constructor] | discriminate].
  - destruct n; simpl in H; [discriminate | ].
    bind_inv H. bind_inv H.
    destruct (IH _ _ Ha0) as (Hlen & Hall).
    split; [simpl; congruence | ].
    constructor; [exists a0; exact Ha | exact Hall].
Qed.

(** [np.concatenate] with the layer of ones succeeds only on an array of
    the size of the layer. *)
Lemma concatenate_ones_size :
  forall (a colors : ndarray) (h w : nat),
    concatenate_last a (ones_255 h w) = Ok colors -> has_size h w a.
Proof.
  intros a colors h w H. unfold concatenate_last, ones_255 in H.
  apply zipM_repeat_length in H. destruct H as (Hlen & Hrows).
  split; [exact Hlen | ].
  eapply Forall_impl; [ | exact Hrows].
  intros row (d & Hd). simpl in Hd.
  apply zipM_repeat_length in Hd. apply Hd.
Qed.

Lemma with_alpha_size :
  forall (a : ndarray) (h w : nat),
    has_size h w a -> has_size h w (with_alpha a).
Proof.
  intros a h w [Hh Hw]. unfold with_alpha. split.
  - rewrite length_map. exact Hh.
  - apply Forall_map. eapply Forall_impl; [ | exact Hw].
    intros row Hrow. simpl. rewrite length_map. exact Hrow.
Qed.


Lemma rows_of_size :
  forall (A : Type) (w h : nat) (l : list A),
    length l = h * w -> has_size h w (rows_of h w l).
Proof.
  intros A w; induction h as [| h IH]; intros l Hl; simpl.
  - split; [reflexivity | constructor].
  - assert (Hw : w <= length l) by (simpl in Hl; lia).
    destruct (IH (skipn w l)) as (Hh & Hrows).
    { rewrite length_skipn. simpl in Hl. lia. }
    split; [simpl; congruence | ].
    constructor; [ | exact Hrows].
    rewrite length_firstn. lia.
Qed.

Lemma reshape_size :
  forall (A : Type) (h w : nat) (l : list A) (v : list (list A)),
    reshape h w l = Ok v -> has_size h w v /\ length l = h * w.
Proof.
  intros A h w l v H. unfold reshape in H.
  destruct (Nat.eqb (length l) (h * w)) eqn:E; [ | discriminate].
  apply Nat.eqb_eq in E. inversion H; subst.
  split; [apply rows_of_size; exact E | exact E].
Qed.


Section WithCollaborators.
Context {C : Collaborators}.

Lemma build_frameset_size :
  forall cam d c fs,
    build_frameset cam d c = Ok fs ->
    has_size (_depth_height cam) (_depth_width cam) (colorize d)
    /\ has_size (_depth_height cam) (_depth_width cam)
                (pointcloud_vertexes fs)
    /\ length (calculate d) = _depth_height cam * _depth_width cam.
Proof.
  intros cam d c fs H. unfold build_frameset in H.
  bind_inv H. bind_inv H. inversion H; subst; simpl.
  apply concatenate_ones_size in Ha.
  apply reshape_size in Ha0. destruct Ha0 as (Hv & Hn).
  repeat split; try assumption; apply Ha || apply Hv.
Qed.


End WithCollaborators.


End ShapeFacts.

(** ** The pixels of the overlay *)

Module OverlayFacts.
Import Shape Overlay Segmentation.

Lemma nth_error_map_indexed :
  forall (A B : Type) (f : nat -> A -> B) (l : list A) (i n : nat),
    nth_error (map_indexed f i l) n = option_map (f (i + n)) (nth_error l n).
Proof.
  intros A B f; induction l as [| a l IH]; intros i n.
  - destruct n; reflexivity.
  - destruct n; simpl.
    + rewrite Nat.add_0_r. reflexivity.
    + rewrite IH. replace (S i + n) with (i + S n) by lia. reflexivity.
Qed.

Lemma nth_error_zip_with :
  forall (A B D : Type) (f : A -> B -> D) (l : list A) (m : list B)
         (n : nat),
    nth_error (zip_with f l m) n
    = match nth_error l n, nth_error m n with
      | Some a, Some b => Some (f a b)
      | _, _ => None
      end.
Proof.
  intros A B D f; induction l as [| a l IH]; intros m n.
  - destruct n; reflexivity.
  - destruct m as [| b m].
    + destruct n; simpl; [reflexivity | ].
      destruct (nth_error l n); reflexivity.
    + destruct n; simpl; [reflexivity | apply IH].
Qed.

Lemma firstn_length_firstn :
  forall (A : Type) (n : nat) (l : list A),
    firstn (length (firstn n l)) l = firstn n l.
Proof.
  intros A n l. rewrite length_firstn.
  destruct (Nat.le_ge_cases n (length l)) as [H | H].
  - rewrite Nat.min_l by exact H. reflexivity.
  - rewrite Nat.min_r by exact H.
    rewrite firstn_all, firstn_all2 by exact H. reflexivity.
Qed.

(** The colour [drawContours] writes in a pixel. *)
Lemma fill_twice :
  forall px : pixel,
    firstn (length (firstn (length px) [0; 0; 255; 0]%Z)) [0; 0; 255; 0]%Z
    = firstn (length px) [0; 0; 255; 0]%Z.
Proof. intros px. apply firstn_length_firstn. Qed.

Lemma add_weighted_channel_255 :
  forall c,
    uint8 c ->
    (c <= add_weighted_channel c 255 <= 255)%Z
    /\ ((c < 255)%Z -> (c < add_weighted_channel c 255)%Z)
    /\ ((128 <= c)%Z -> add_weighted_channel c 255 = 255%Z).
Proof.
  intros c [Hlo Hhi].
  assert (Hodd : Z.even (2 * c + 255) = false).
  { replace (2 * c + 255)%Z with (1 + 2 * (c + 127))%Z by ring.
    rewrite Z.even_add_mul_2. reflexivity. }
  assert (Hhalf : ((2 * c + 255) / 2 = c + 127)%Z).
  { replace (2 * c + 255)%Z with (1 + (c + 127) * 2)%Z by ring.
    rewrite Z.div_add by lia. reflexivity. }
  unfold add_weighted_channel, round_half_even_halves, saturate_u8.
  rewrite Hodd, Hhalf.
  destruct (Z.even (c + 127)); repeat split; intros; lia.
Qed.

Section WithCollaborators.
Context {C : Collaborators}.

Lemma pixel_at_zeros_like :
  forall a x y,
    pixel_at (zeros_like a) x y
    = option_map (map (fun _ : Z => 0%Z)) (pixel_at a x y).
Proof.
  intros a x y. unfold pixel_at, zeros_like, ndarray, pixel in *.
  rewrite nth_error_map.
  destruct (nth_error a y) as [row |]; simpl; [ | reflexivity].
  apply nth_error_map.
Qed.

Lemma pixel_at_drawContours :
  forall img c x y,
    pixel_at (drawContours img c) x y
    = option_map
        (fun px : pixel =>
           if filled c x y then firstn (length px) [0; 0; 255; 0]%Z else px)
        (pixel_at img x y).
Proof.
  intros img c x y. unfold pixel_at, drawContours, ndarray, pixel in *.
  rewrite nth_error_map_indexed.
  destruct (nth_error img y) as [row |]; simpl; [ | reflexivity].
  rewrite nth_error_map_indexed. reflexivity.
Qed.

Lemma pixel_at_addWeighted :
  forall a b x y,
    pixel_at (addWeighted a b) x y
    = match pixel_at a x y, pixel_at b x y with
      | Some p, Some q => Some (zip_with add_weighted_channel p q)
      | _, _ => None
      end.
Proof.
  intros a b x y. unfold pixel_at, addWeighted, ndarray, pixel in *.
  rewrite nth_error_zip_with.
  destruct (nth_error a y) as [ra |]; [ | reflexivity].
  destruct (nth_error b y) as [rb |].
  - apply nth_error_zip_with.
  - destruct (nth_error ra x); reflexivity.
Qed.

(** After the contours are drawn, a pixel either kept its value or holds
    the fill colour. *)
Lemma pixel_at_drawn :
  forall cs img x y,
    pixel_at (fold_left drawContours cs img) x y
    = option_map
        (fun px : pixel =>
           if existsb (fun c => filled c x y) cs
           then firstn (length px) [0; 0; 255; 0]%Z else px)
        (pixel_at img x y).
Proof.
  induction cs as [| c cs IH]; intros img x y; simpl.
  - destruct (pixel_at img x y); reflexivity.
  - rewrite IH, pixel_at_drawContours.
    destruct (pixel_at img x y) as [px |]; simpl; [ | reflexivity].
    destruct (filled c x y); simpl; [ | reflexivity].
    rewrite fill_twice.
    destruct (existsb (fun c0 => filled c0 x y) cs); reflexivity.
Qed.

(** The overlay, pixel by pixel: outside the filled contours of the
    allowed detections a BGR pixel of the colour image is unchanged;
    inside them its blue and green are unchanged and its red is blended
    with 255, which never darkens it, brightens it unless it is 255
    already, and saturates it from 128 on. *)
Theorem overlay_pixels :
  forall seg color depth img cs r rest x y b g rd,
    process seg color depth = Ok (img, cs) ->
    items_of (predict color) = r :: rest ->
    pixel_at color x y = Some [b; g; rd] ->
    uint8 b -> uint8 g -> uint8 rd ->
    pixel_at img x y
    = Some (if painted seg r x y
            then [b; g; add_weighted_channel rd 255]
            else [b; g; rd])
    /\ (rd <= add_weighted_channel rd 255 <= 255)%Z
    /\ ((rd < 255)%Z -> (rd < add_weighted_channel rd 255)%Z)
    /\ ((128 <= rd)%Z -> add_weighted_channel rd 255 = 255%Z).
Proof.
  intros seg color depth img cs r rest x y b g rd H Hi Hpx Hb Hg Hr.
  split; [ | apply add_weighted_channel_255; exact Hr].
  apply SegmentationFacts.process_ok_inv in H.
  destruct H as [(Ht & _ & _) | (r' & rest' & _ & Hi' & Himg & _)].
  - exfalso. unfold truthy, items_of in *.
    destruct (predict color) as [l | l]; [discriminate | ].
    subst l. discriminate.
  - rewrite Hi in Hi'. inversion Hi'; subst r' rest'. subst img.
    rewrite pixel_at_addWeighted, pixel_at_drawn, pixel_at_zeros_like, Hpx.
    unfold painted. simpl.
    destruct (existsb (fun c => filled c x y) (allowed_contours seg r));
      simpl;
      rewrite !SegmentationFacts.add_weighted_channel_zero by assumption;
      reflexivity.
Qed.

Lemma shape_of_zeros_like :
  forall a, shape_of (zeros_like a) = shape_of a.
Proof.
  intros a. unfold shape_of, zeros_like.
  rewrite map_map. apply map_ext; intros row.
  rewrite map_map. apply map_ext; intros px.
  apply length_map.
Qed.

Lemma map_map_indexed :
  forall (A B D : Type) (f : nat -> A -> B) (g : B -> D) (h : A -> D)
         (P : A -> Prop),
    (forall i a, P a -> g (f i a) = h a) ->
    forall (l : list A) (i : nat),
      Forall P l -> map g (map_indexed f i l) = map h l.
Proof.
  intros A B D f g h P Hf l i H; revert i.
  induction H as [| a l Ha _ IH]; intros i; simpl; [reflexivity | ].
  rewrite Hf, IH by assumption. reflexivity.
Qed.

Lemma shape_of_drawContours :
  forall img c,
    channels_at_most 4 img -> shape_of (drawContours img c) = shape_of img.
Proof.
  intros img c H. unfold shape_of, drawContours.
  apply map_map_indexed
    with (P := Forall (fun px : pixel => length px <= 4)); [ | exact H].
  intros y row Hrow.
  apply map_map_indexed with (P := fun px : pixel => length px <= 4);
    [ | exact Hrow].
  intros x px Hpx. destruct (filled c x y); [ | reflexivity].
  rewrite length_firstn. simpl. lia.
Qed.

Lemma channels_at_most_shape :
  forall n a b,
    shape_of a = shape_of b -> channels_at_most n a -> channels_at_most n b.
Proof.
  intros n a; unfold shape_of, channels_at_most.
  induction a as [| ra a IH]; intros [| rb b] H Ha; simpl in H;
    try discriminate; [constructor | ].
  inversion H as [[Hr Hrest]]. inversion Ha as [| ? ? Hra Ha']; subst.
  constructor; [ | apply IH; assumption].
  clear - Hr Hra. revert rb Hr.
  induction ra as [| p ra IH]; intros [| q rb] Hr; simpl in Hr;
    try discriminate; [constructor | ].
  inversion Hr as [[Hp Hrest]]. inversion Hra; subst.
  constructor; [lia | apply IH; assumption].
Qed.

Lemma shape_of_drawn :
  forall cs img,
    channels_at_most 4 img ->
    shape_of (fold_left drawContours cs img) = shape_of img.
Proof.
  induction cs as [| c cs IH]; intros img H; simpl; [reflexivity | ].
  pose proof (shape_of_drawContours c H) as Hc.
  rewrite IH.
  - exact Hc.
  - apply channels_at_most_shape with (a := img);
      [symmetry; exact Hc | exact H].
Qed.

Lemma length_zip_with_same :
  forall (A B D : Type) (f : A -> B -> D) (l : list A) (m : list B),
    length l = length m -> length (zip_with f l m) = length l.
Proof.
  intros A B D f; induction l as [| a l IH]; intros [| b m] H;
    simpl in *; try discriminate; [reflexivity | ].
  rewrite IH by congruence. reflexivity.
Qed.

Lemma shape_of_addWeighted :
  forall a b, shape_of b = shape_of a -> shape_of (addWeighted a b) = shape_of a.
Proof.
  unfold shape_of, addWeighted.
  induction a as [| ra a IH]; intros [| rb b] H; simpl in H;
    try discriminate; [reflexivity | ].
  inversion H as [[Hr Hrest]]. simpl. rewrite IH by exact Hrest.
  f_equal. clear - Hr. revert rb Hr.
  induction ra as [| p ra IHr]; intros [| q rb] Hr; simpl in Hr;
    try discriminate; [reflexivity | ].
  inversion Hr as [[Hp Hrest]]. simpl.
  rewrite IHr by exact Hrest.
  rewrite length_zip_with_same by congruence. reflexivity.
Qed.

(** The overlay [process] returns has the shape of the colour image: as
    many rows, as many pixels in each row, as many channels in each
    pixel (for images of at most four channels, which is all OpenCV
    draws on). *)
Theorem overlay_has_shape_of_color_image :
  forall seg color depth img cs,
    process seg color depth = Ok (img, cs) ->
    channels_at_most 4 color ->
    shape_of img = shape_of color.
Proof.
  intros seg color depth img cs H H4.
  apply SegmentationFacts.process_ok_inv in H.
  destruct H as [(_ & Himg & _) | (r & rest & _ & _ & Himg & _)]; subst img.
  - apply shape_of_zeros_like.
  - apply shape_of_addWeighted.
    rewrite shape_of_drawn.
    + apply shape_of_zeros_like.
    + apply channels_at_most_shape with (a := color);
        [symmetry; apply shape_of_zeros_like | exact H4].
Qed.

End WithCollaborators.

Lemma overlay_pixels_witness :
  exists img cs,
    @process Examples.sees_person Examples.only_person
      (get_data Examples.color0) Examples.depth0 = Ok (img, cs)
    /\ pixel_at (get_data Examples.color0) 1 0 = Some [40; 50; 60]%Z
    /\ @painted Examples.sees_person Examples.only_person
         [Examples.person_square] 1 0 = true
    /\ pixel_at img 1 0 = Some [40; 50; 188]%Z.
Proof.
  destruct (@process Examples.sees_person Examples.only_person
              (get_data Examples.color0) Examples.depth0)
    as [[img cs] | e] eqn:E; [ | discriminate E].
  exists img, cs. split; [reflexivity | ].
  split; [reflexivity | ]. split; [reflexivity | ].
  destruct (@overlay_pixels Examples.sees_person Examples.only_person
              (get_data Examples.color0) Examples.depth0 img cs
              [Examples.person_square] [] 1 0 40%Z 50%Z 60%Z
              E eq_refl eq_refl) as (Hpx & _);
    try (unfold uint8; lia).
  exact Hpx.
Defined.

Lemma overlay_has_shape_of_color_image_witness :
  exists img cs,
    @process Examples.sees_person Examples.only_person
      (get_data Examples.color0) Examples.depth0 = Ok (img, cs)
    /\ channels_at_most 4 (get_data Examples.color0)
    /\ shape_of img = [[3; 3]; [3; 3]].
Proof.
  assert (H4 : channels_at_most 4 (get_data Examples.color0)).
  { unfold channels_at_most; simpl. repeat (constructor; try lia). }
  destruct (@process Examples.sees_person Examples.only_person
              (get_data Examples.color0) Examples.depth0)
    as [[img cs] | e] eqn:E; [ | discriminate E].
  exists img, cs. split; [reflexivity | split; [exact H4 | ]].
  rewrite (@overlay_has_shape_of_color_image Examples.sees_person
             Examples.only_person (get_data Examples.color0)
             Examples.depth0 img cs E H4).
  reflexivity.
Defined.

End OverlayFacts.

(** ** The datasets *)

Module DatasetFacts.
Import Shape Processor.











Section WithCollaborators.
Context {C : Collaborators}.

Lemma get_frames_keeps_scale :
  forall fuel cam fs cam',
    Camera.get_frames fuel cam = Some (Ok (fs, cam')) ->
    Camera.depth_scale cam' = Camera.depth_scale cam
    /\ Camera._depth_width cam' = Camera._depth_width cam
    /\ Camera._depth_height cam' = Camera._depth_height cam
    /\ Camera.streaming (Camera._pipeline cam') = true.
Proof.
  intros fuel cam fs cam' H.
  pose proof (CameraFacts.get_frames_answer_streaming _ _ H) as Hs.
  destruct (CameraFacts.get_frames_sound fuel cam Hs H)
    as (k & d & c & _ & Hr).
  symmetry in Hr. bind_inv Hr.
  assert (Hcam : Camera.advance cam (S k) = cam') by congruence.
  subst cam'. repeat split.
Qed.

(** The depth scale is used only when there is a centroid to convert:
    with a depth scale of zero a frame without centroid is assembled
    with an empty centroid list, and a frame with a centroid raises
    [ZeroDivisionError]. *)
Theorem assemble_with_zero_depth_scale :
  forall seg camera frameset img cs,
    Segmentation.process seg (Camera.color_image frameset)
                         (Camera.depth_frame frameset) = Ok (img, cs) ->
    (Camera.depth_scale camera == 0)%Q ->
    (cs = [] ->
     exists d, assemble seg camera frameset = Ok d /\ centroids d = [])
    /\ (cs <> [] -> assemble seg camera frameset = Raise ZeroDivisionError).
Proof.
  intros seg camera frameset img cs H Hz. unfold assemble. rewrite H.
  simpl. split.
  - intros ->. simpl. eexists. split; reflexivity.
  - intros Hne. destruct cs as [| [[c0 c1] c2] cs]; [congruence | ].
    simpl. unfold py_div.
    apply Qeq_bool_iff in Hz. rewrite Hz. reflexivity.
Qed.


(** One turn of the loop appends one dataset to the queue and leaves the
    datasets before it, the flag and the allow-list as they were; the
    point cloud of the dataset has one vertex and one colour per pixel
    of the depth size of the camera, and every colour ends in 255. *)
Theorem process_frame_publishes_one_dataset :
  forall fuel p p',
    _process_frame fuel p = Some (Ok p') ->
    exists d,
      _queue p' = _queue p ++ [d]
      /\ _running p' = _running p
      /\ _segmentation p' = _segmentation p
      /\ has_size (Camera._depth_height (_camera p))
                  (Camera._depth_width (_camera p))
                  (pointcloud_vertexes d)
      /\ has_size (Camera._depth_height (_camera p))
                  (Camera._depth_width (_camera p))
                  (pointcloud_colors d)
      /\ Forall (Forall (fun px : pixel => last px 0%Z = 255%Z))
                (pointcloud_colors d).
Proof.
  intros fuel p p' H.
  assert (Hseg : _segmentation p' = _segmentation p).
  { unfold _process_frame in H.
    destruct (Camera.get_frames fuel (_camera p))
      as [[[fs0 cam0] | e] | ]; try discriminate.
    inversion H as [H']. bind_inv H'. inversion H'; reflexivity. }
  apply ProcessorFacts._process_frame_inv in H.
  destruct H as (fs & d & Hg & Ha & Hq & Hr).
  exists d. split; [exact Hq | ]. split; [exact Hr | ].
  split; [exact Hseg | ].
  apply ProcessorFacts.assemble_centroids in Ha.
  destruct Ha as (_ & Hc & Hv). rewrite Hc, Hv.
  pose proof (CameraFacts.get_frames_answer_streaming _ _ Hg) as Hs.
  destruct (CameraFacts.get_frames_sound fuel (_camera p) Hs Hg)
    as (k & d0 & c0 & _ & Hrr).
  symmetry in Hrr. bind_inv Hrr. inversion Hrr; subst.
  destruct (CameraFacts.build_frameset_fields _ _ _ Ha)
    as (_ & _ & _ & Hcol).
  destruct (ShapeFacts.build_frameset_size _ _ _ Ha) as (Hsz & Hvs & _).
  simpl in Hsz, Hvs.
  split; [exact Hvs | ].
  rewrite Hcol. split.
  - apply ShapeFacts.with_alpha_size. exact Hsz.
  - apply CameraFacts.with_alpha_last.
Qed.

End WithCollaborators.



Lemma assemble_with_zero_depth_scale_witness :
  exists img c,
    @Segmentation.process Examples.sees_person Examples.only_person
      (Camera.color_image MoreExamples.frameset0)
      (Camera.depth_frame MoreExamples.frameset0) = Ok (img, [c])
    /\ (Camera.depth_scale MoreExamples.camera_zero_scale == 0)%Q
    /\ @assemble Examples.sees_person Examples.only_person
         MoreExamples.camera_zero_scale MoreExamples.frameset0
       = Raise ZeroDivisionError.
Proof.
  destruct (@Segmentation.process Examples.sees_person Examples.only_person
              (Camera.color_image MoreExamples.frameset0)
              (Camera.depth_frame MoreExamples.frameset0))
    as [[img [| c [| c' cs]]] | e] eqn:E; try discriminate E.
  exists img, c. split; [reflexivity | ].
  split; [reflexivity | ].
  destruct (@assemble_with_zero_depth_scale Examples.sees_person
              Examples.only_person MoreExamples.camera_zero_scale
              MoreExamples.frameset0 img [c] E) as (_ & Hraise).
  - reflexivity.
  - apply Hraise. discriminate.
Defined.


Lemma process_frame_publishes_one_dataset_witness :
  exists p' d,
    @_process_frame Examples.sees_person 3 (init Examples.camera0)
    = Some (Ok p')
    /\ _queue p' = [d]
    /\ has_size 2 2 (pointcloud_colors d)
    /\ Forall (Forall (fun px : pixel => last px 0%Z = 255%Z))
              (pointcloud_colors d).
Proof.
  destruct (@_process_frame Examples.sees_person 3 (init Examples.camera0))
    as [[p' | e] | ] eqn:E; try discriminate E.
  destruct (@process_frame_publishes_one_dataset Examples.sees_person 3
              (init Examples.camera0) p' E)
    as (d & Hq & _ & _ & _ & Hc & Ha).
  exists p', d. repeat split; try assumption; apply Hc.
Defined.

End DatasetFacts.

(** ** The bookkeeping of the two threads *)

Module AccountingFacts.
Import Lifecycle Accounting.

Lemma stop_closes :
  forall cam cam',
    Camera.stop cam = Ok cam' ->
    Camera.streaming (Camera._pipeline cam') = false.
Proof.
  intros cam cam' H. unfold Camera.stop, Camera.pipeline_stop in H.
  destruct (Camera.streaming (Camera._pipeline cam)); [ | discriminate].
  inversion H; reflexivity.
Qed.

Lemma buffered_get_dataset :
  forall p,
    Handoff.buffered (Processor._queue (snd (Processor.get_dataset p)))
    <= Handoff.buffered (Processor._queue p).
Proof.
  intros p. unfold Processor.get_dataset.
  destruct (Processor._queue p) as [| d q]; simpl; lia.
Qed.

Lemma camera_get_dataset :
  forall p,
    Processor._camera (snd (Processor.get_dataset p)) = Processor._camera p
    /\ Processor._running (snd (Processor.get_dataset p))
       = Processor._running p.
Proof.
  intros p. unfold Processor.get_dataset.
  destruct (Handoff.get_dataset (Processor._queue p)); split; reflexivity.
Qed.

Section WithCollaborators.
Context {C : Collaborators}.

Lemma step_accounted :
  forall s s', step s s' -> accounted s -> accounted s'.
Proof.
  intros s s' Hstep; destruct Hstep; unfold accounted; simpl;
    try (intros [Hg Hb]; repeat split; lia).
  - (* put *)
    intros [Hg Hb]. rewrite HandoffFacts.buffered_put. split; lia.
  - (* take *)
    pose proof (buffered_get_dataset p) as Hle.
    destruct t; intros [Hg Hb]; repeat split; try lia; try exact Hg.
  - (* stop *)
    destruct t; intros [Hg Hb]; repeat split; try lia; try exact Hg.
  - (* close *)
    destruct t; intros [Hg Hb]; repeat split; try lia; try exact Hg.
Qed.

Lemma reachable_accounted :
  forall camera s, reachable camera s -> accounted s.
Proof.
  intros camera s H; unfold reachable in H.
  remember (initial camera) as s0 eqn:E.
  induction H as [s | s1 s2 s3 _ IH Hstep].
  - subst s. unfold accounted; simpl. split; lia.
  - eapply step_accounted; [exact Hstep | apply IH; exact E].
Qed.

(** In every state the two threads can reach, the segmentation has been
    called at most once for each frameset fetched and at least once for
    each but the last; the queue holds at most one dataset for each call
    of the segmentation; so as long as the segmentation was not called,
    [get_dataset] returns [None]. *)
Theorem calls_and_queue_are_accounted :
  forall camera s,
    reachable camera s ->
    process_calls s <= get_frames_calls s <= S (process_calls s)
    /\ Handoff.buffered (Processor._queue (proc s)) <= process_calls s
    /\ (process_calls s = 0 -> fst (Processor.get_dataset (proc s)) = None).
Proof.
  intros camera s H. apply reachable_accounted in H.
  assert (Hmain :
            process_calls s <= get_frames_calls s <= S (process_calls s)
            /\ Handoff.buffered (Processor._queue (proc s))
               <= process_calls s).
  { unfold accounted in H. destruct (thread s); simpl in H;
      destruct H as [Hg Hb]; split; lia. }
  destruct Hmain as (Hcalls & Hbuf).
  split; [exact Hcalls | split; [exact Hbuf | ]].
  intros H0. unfold Processor.get_dataset.
  destruct (Processor._queue (proc s)) as [| d q]; [reflexivity | ].
  simpl in Hbuf. lia.
Qed.

Lemma step_open_until_closed :
  forall s s',
    step s s' ->
    open_until_closed s /\ (main s = Closed -> ~ camera_streams s) ->
    open_until_closed s' /\ (main s' = Closed -> ~ camera_streams s').
Proof.
  intros s s' Hstep; destruct Hstep;
    unfold open_until_closed, camera_streams; simpl;
    intros [Hopen Hclosed];
    try (split; [exact Hopen | exact Hclosed]);
    try (split; intros Hm; discriminate Hm || (exfalso; congruence)).
  - (* get_frames *)
    destruct (DatasetFacts.get_frames_keeps_scale _ _ H)
      as (_ & _ & _ & Hs).
    pose proof (CameraFacts.get_frames_answer_streaming _ _ H) as Hs0.
    split; [intros _; exact Hs | ].
    intros Hm Hc. apply (Hclosed Hm). exact Hs0.
  - (* take *)
    destruct (camera_get_dataset p) as (Hc & _). rewrite Hc.
    split; [exact Hopen | exact Hclosed].
  - (* stop *)
    split; [intros _; apply Hopen; discriminate | intros Hm; discriminate Hm].
  - (* join *)
    split; [intros _; apply Hopen; discriminate | intros Hm; discriminate Hm].
  - (* join raises *)
    split; [intros _; apply Hopen; discriminate | intros Hm; discriminate Hm].
  - (* close *)
    apply stop_closes in H.
    split; [intros Hm; congruence | intros _ Hc; congruence].
Qed.

Lemma reachable_open_until_closed :
  forall camera s,
    Camera.streaming (Camera._pipeline camera) = true ->
    reachable camera s ->
    open_until_closed s /\ (main s = Closed -> ~ camera_streams s).
Proof.
  intros camera s Hs H; unfold reachable in H.
  remember (initial camera) as s0 eqn:E.
  induction H as [s | s1 s2 s3 _ IH Hstep].
  - subst s. unfold open_until_closed, camera_streams; simpl.
    split; [intros _; exact Hs | intros Hm; discriminate Hm].
  - eapply step_open_until_closed; [exact Hstep | apply IH; exact E].
Qed.

(** With a camera that streams when the processor is built, the camera
    streams in every reachable state in which the background thread is
    not over: [AppWindow.stop] closes the camera only after
    [processor.stop()] has returned, so the thread never meets a closed
    pipeline; and once the camera is closed it stays closed. *)
Theorem thread_never_meets_closed_camera :
  forall camera s,
    Camera.streaming (Camera._pipeline camera) = true ->
    reachable camera s ->
    (thread s <> Finished -> camera_streams s)
    /\ (main s = Closed -> ~ camera_streams s /\ thread s = Finished).
Proof.
  intros camera s Hs H.
  destruct (reachable_open_until_closed Hs H) as (Hopen & Hclosed).
  pose proof (LifecycleFacts.reachable_joined H) as Hj.
  unfold joined, stop_returned in Hj. split.
  - intros Ht. apply Hopen. intros Hm. apply Ht, Hj. right; exact Hm.
  - intros Hm. split; [apply Hclosed; exact Hm | apply Hj; right; exact Hm].
Qed.

Lemma step_flag_set_after_stop :
  forall s s', step s s' -> flag_set_after_stop s -> flag_set_after_stop s'.
Proof.
  intros s s' Hstep; destruct Hstep; unfold flag_set_after_stop; simpl;
    intros [Hm Hr]; try (split; [exact Hm | exact Hr]);
    try (split; [discriminate | exact Hr]);
    try (exfalso; apply Hm; reflexivity).
  - split; [exact Hm | reflexivity].
  - destruct (camera_get_dataset p) as (_ & Hrun). rewrite Hrun.
    split; [exact Hm | exact Hr].
Qed.

(** When the flag is set although [stop] has cleared it ([stop] ran
    between [start()] and the first statement of [run]), nothing clears
    it again: in every later state the flag is set, and the test of the
    loop never ends the thread. *)
Theorem flag_set_after_stop_stays_set :
  forall s s',
    flag_set_after_stop s ->
    steps s s' ->
    flag_set_after_stop s'
    /\ forall s'', step s' s'' -> thread s' = AtTest ->
                   thread s'' <> Finished.
Proof.
  intros s s' Hf H.
  assert (Hf' : flag_set_after_stop s').
  { induction H as [s | s1 s2 s3 _ IH Hstep]; [exact Hf | ].
    eapply step_flag_set_after_stop; [exact Hstep | apply IH; exact Hf]. }
  split; [exact Hf' | ].
  intros s'' Hstep Ht. destruct Hf' as (Hm & Hr).
  destruct Hstep; simpl in *; try discriminate Ht; try discriminate;
    try congruence.
Qed.

End WithCollaborators.

Lemma calls_and_queue_are_accounted_witness :
  exists s,
    @reachable Examples.sees_person Examples.camera0 s
    /\ get_frames_calls s = 1
    /\ process_calls s <= get_frames_calls s <= S (process_calls s)
    /\ Handoff.buffered (Processor._queue (proc s)) <= process_calls s.
Proof.
  destruct LifecycleFacts.example_run as (s & Hr & _ & Hg & _).
  exists s. split; [exact Hr | split; [exact Hg | ]].
  destruct (@calls_and_queue_are_accounted Examples.sees_person
              Examples.camera0 s Hr) as (Hc & Hb & _).
  split; assumption.
Defined.

Lemma thread_never_meets_closed_camera_witness :
  exists s,
    Camera.streaming (Camera._pipeline Examples.camera0) = true
    /\ @reachable Examples.sees_person Examples.camera0 s
    /\ thread s = AtGetFrames
    /\ camera_streams s.
Proof.
  assert (Hr : @reachable Examples.sees_person Examples.camera0
                 {| proc := set_running (Processor.init Examples.camera0) true;
                    thread := AtGetFrames; main := Idle;
                    get_frames_calls := 0; process_calls := 0 |}).
  { unfold reachable, initial.
    eapply LifecycleFacts.steps_cons; [apply step_start | ].
    eapply LifecycleFacts.steps_cons; [apply step_run | ].
    eapply LifecycleFacts.steps_cons; [apply step_loop; reflexivity | ].
    apply steps_refl. }
  eexists. split; [reflexivity | ]. split; [exact Hr | ].
  split; [reflexivity | ].
  destruct (@thread_never_meets_closed_camera Examples.sees_person
              Examples.camera0 _ eq_refl Hr) as (Hopen & _).
  apply Hopen. discriminate.
Defined.

(** [stop] between [start()] and the first statement of [run]. *)
Lemma flag_set_after_stop_reachable :
  exists s,
    @reachable Examples.sees_person Examples.camera0 s
    /\ flag_set_after_stop s
    /\ thread s = AtTest
    /\ main s = Joining.
Proof.
  eexists. split.
  - unfold reachable, initial.
    eapply LifecycleFacts.steps_cons; [apply step_start | ].
    eapply LifecycleFacts.steps_cons; [apply step_stop | ].
    eapply LifecycleFacts.steps_cons; [apply step_run | ].
    apply steps_refl.
  - repeat split. discriminate.
Defined.

Lemma flag_set_after_stop_stays_set_witness :
  exists s,
    @reachable Examples.sees_person Examples.camera0 s
    /\ flag_set_after_stop s
    /\ forall s',
         @steps Examples.sees_person s s' ->
         flag_set_after_stop s'.
Proof.
  destruct flag_set_after_stop_reachable as (s & Hr & Hf & _).
  exists s. split; [exact Hr | split; [exact Hf | ]].
  intros s' H.
  apply (@flag_set_after_stop_stays_set Examples.sees_person s s' Hf H).
Defined.

End AccountingFacts.

(** ** The window *)

Module AppFacts.
Import App.

(** What [on_draw] does to the window, by the state of the queue. *)
Lemma on_draw_cases :
  forall a,
    (Processor._queue (_processor a) = []
     /\ fst (Processor.get_dataset (_processor a)) = None
     /\ Processor._queue (_processor (on_draw a)) = []
     /\ _current_dataset (on_draw a) = _current_dataset a)
    \/ (exists d q,
          Processor._queue (_processor a) = d :: q
          /\ fst (Processor.get_dataset (_processor a)) = Some d
          /\ Processor._queue (_processor (on_draw a)) = q
          /\ _current_dataset (on_draw a) = Some d).
Proof.
  intros a. unfold on_draw, Processor.get_dataset.
  destruct (Processor._queue (_processor a)) as [| d q]; simpl.
  - left. repeat split.
  - right. exists d, q. repeat split.
Qed.

(** Whatever the order of publications and draws, the datasets [on_draw]
    made current, followed by those still in the queue, are the datasets
    that were in the queue followed by those published, in order: the
    window shows every dataset, oldest first, and skips none; and the
    current dataset is the last one shown, or the one of before when
    none was shown. *)
Theorem window_shows_every_dataset_in_order :
  forall es a,
    shown a es ++ Processor._queue (_processor (play a es))
    = Processor._queue (_processor a) ++ published es
    /\ _current_dataset (play a es)
       = match rev (shown a es) with
         | [] => _current_dataset a
         | d :: _ => Some d
         end.
Proof.
  induction es as [| e es IH]; intros a.
  - simpl. rewrite app_nil_r. split; reflexivity.
  - change (play a (e :: es)) with (play (handle a e) es).
    destruct (IH (handle a e)) as (Hq & Hc).
    destruct e as [d |].
    + change (shown a (Published d :: es))
        with (shown (handle a (Published d)) es).
      change (published (Published d :: es)) with (d :: published es).
      rewrite Hq, Hc. simpl. unfold Handoff.put.
      rewrite <- app_assoc. split; reflexivity.
    + change (published (Draw :: es)) with (published es).
      change (handle a Draw) with (on_draw a) in *.
      destruct (on_draw_cases a)
        as [(Hempty & Hnone & Hq' & Hc')
           | (d & q & Hcons & Hsome & Hq' & Hc')].
      * replace (shown a (Draw :: es)) with (shown (on_draw a) es)
          by (simpl; rewrite Hnone; reflexivity).
        rewrite Hq, Hc, Hq', Hc', Hempty. split; reflexivity.
      * replace (shown a (Draw :: es)) with (d :: shown (on_draw a) es)
          by (simpl; rewrite Hsome; reflexivity).
        simpl app. rewrite Hq, Hc, Hq', Hc', Hcons. split.
        -- reflexivity.
        -- simpl rev.
           destruct (rev (shown (on_draw a) es)) as [| d' l]; reflexivity.
Qed.

Section Labels.
Variable cursor_width : Z.
Variable content_width : string -> Z.

Lemma draw_centroid_step :
  forall cursors labels c,
    fst (draw_centroid cursor_width content_width (cursors, labels) c)
    = cursors ++ [cursor_of c]
    /\ map text
           (snd (draw_centroid cursor_width content_width (cursors, labels) c))
       = map text labels
         ++ (if (snd c >? 0)%Z then [distance_text (snd c)] else [])
    /\ map label_y
           (snd (draw_centroid cursor_width content_width (cursors, labels) c))
       = map label_y labels
         ++ (if (snd c >? 0)%Z then [(snd (fst c) + 602)%Z] else []).
Proof.
  intros cursors labels [[cx cy] distance]. unfold draw_centroid. simpl snd.
  simpl fst.
  destruct (distance >? 0)%Z; simpl.
  - rewrite !map_app. simpl.
    replace (cy + 600 + 2)%Z with (cy + 602)%Z by lia.
    destruct (_ >? _)%Z; simpl; repeat split; reflexivity.
  - rewrite !app_nil_r. repeat split; reflexivity.
Qed.

Lemma draw_centroid_loop :
  forall centroids cursors labels,
    fst (fold_left (draw_centroid cursor_width content_width) centroids
                   (cursors, labels))
    = cursors ++ map cursor_of centroids
    /\ map text (snd (fold_left (draw_centroid cursor_width content_width)
                                centroids (cursors, labels)))
       = map text labels
         ++ map (fun c => distance_text (snd c))
                (filter (fun c => (snd c >? 0)%Z) centroids)
    /\ map label_y (snd (fold_left (draw_centroid cursor_width content_width)
                                   centroids (cursors, labels)))
       = map label_y labels
         ++ map (fun c => (snd (fst c) + 602)%Z)
                (filter (fun c => (snd c >? 0)%Z) centroids).
Proof.
  induction centroids as [| c centroids IH]; intros cursors labels.
  - simpl. rewrite !app_nil_r. repeat split.
  - change (fold_left (draw_centroid cursor_width content_width)
                      (c :: centroids) (cursors, labels))
      with (fold_left (draw_centroid cursor_width content_width) centroids
              (draw_centroid cursor_width content_width (cursors, labels) c)).
    destruct (draw_centroid_step cursors labels c) as (Hc & Ht & Hy).
    destruct (draw_centroid cursor_width content_width (cursors, labels) c)
      as [cs ls].
    simpl in Hc, Ht, Hy.
    destruct (IH cs ls) as (Hc' & Ht' & Hy').
    rewrite Hc', Ht', Hy', Hc, Ht, Hy. simpl filter.
    destruct (snd c >? 0)%Z; simpl; rewrite <- !app_assoc;
      repeat split; reflexivity.
Qed.

(** [_draw_centroids_labels] draws one cursor for every centroid, at the
    centroid moved by (1280, 600), and one label for every centroid whose
    distance is positive, in order, reading the distance followed by
    [mm], two pixels above the line of its cursor; a centroid whose
    distance is zero or negative gets a cursor and no label. *)
Theorem labels_for_positive_distances :
  forall centroids,
    fst (_draw_centroids_labels cursor_width content_width centroids)
    = map cursor_of centroids
    /\ map text
           (snd (_draw_centroids_labels cursor_width content_width centroids))
       = map (fun c => distance_text (snd c))
             (filter (fun c => (snd c >? 0)%Z) centroids)
    /\ map label_y
           (snd (_draw_centroids_labels cursor_width content_width centroids))
       = map (fun c => (snd (fst c) + 602)%Z)
             (filter (fun c => (snd c >? 0)%Z) centroids).
Proof.
  intros centroids. unfold _draw_centroids_labels.
  destruct (draw_centroid_loop centroids [] []) as (Hc & Ht & Hy).
  rewrite Hc, Ht, Hy. repeat split.
Qed.

End Labels.

Lemma length_concat_repeat :
  forall (A : Type) (base : list A) (n : nat),
    length (concat (repeat base n)) = n * length base.
Proof.
  intros A base; induction n as [| n IH]; simpl; [reflexivity | ].
  rewrite length_app, IH. reflexivity.
Qed.

Section Frustrum.
Variable deproject_pixel_to_point : Z * Z -> Z -> list Q.
Variable depth_size : Z * Z.

Lemma frustrum_at_block :
  forall coordinates d,
    frustrum_at deproject_pixel_to_point depth_size coordinates d
    = coordinates ++ frustrum_block deproject_pixel_to_point depth_size d.
Proof.
  intros coordinates d. unfold frustrum_at, frustrum_block.
  repeat rewrite <- app_assoc. reflexivity.
Qed.

Lemma frustrum_coordinates_blocks :
  frustrum_coordinates deproject_pixel_to_point depth_size
  = frustrum_block deproject_pixel_to_point depth_size 1
    ++ frustrum_block deproject_pixel_to_point depth_size 3
    ++ frustrum_block deproject_pixel_to_point depth_size 5.
Proof.
  unfold frustrum_coordinates.
  change (range 1 6 2) with [1; 3; 5]%Z.
  simpl fold_left. rewrite !frustrum_at_block.
  rewrite <- app_assoc. reflexivity.
Qed.

Lemma frustrum_block_segments :
  (forall point d, length (deproject_pixel_to_point point d) = 3) ->
  forall d,
    Forall (fun segment : list Q => length segment = 6)
           (frustrum_block deproject_pixel_to_point depth_size d).
Proof.
  intros H3 d. unfold frustrum_block.
  repeat constructor; rewrite length_app; simpl; rewrite ?H3; reflexivity.
Qed.

Lemma length_concat_uniform :
  forall (A : Type) (n : nat) (l : list (list A)),
    Forall (fun x => length x = n) l -> length (concat l) = length l * n.
Proof.
  intros A n l H; induction H as [| x l Hx _ IH]; simpl; [reflexivity | ].
  rewrite length_app, IH, Hx. reflexivity.
Qed.

(** [_compute_frustrum] builds, for the depths 1, 3 and 5 in turn, the
    four rays from the origin to the corners of the depth image and the
    four edges between neighbouring corners, a closed outline: 24
    segments, 48 vertices; when the deprojection gives points of three
    coordinates, the vertex list gets three positions and four colour
    components for each vertex. *)
Theorem frustrum_vertex_list_is_well_formed :
  (forall point d, length (deproject_pixel_to_point point d) = 3) ->
  frustrum_coordinates deproject_pixel_to_point depth_size
  = frustrum_block deproject_pixel_to_point depth_size 1
    ++ frustrum_block deproject_pixel_to_point depth_size 3
    ++ frustrum_block deproject_pixel_to_point depth_size 5
  /\ count (_compute_frustrum deproject_pixel_to_point depth_size) = 48
  /\ length (position (_compute_frustrum deproject_pixel_to_point depth_size))
     = 3 * 48
  /\ length (colors (_compute_frustrum deproject_pixel_to_point depth_size))
     = 4 * 48.
Proof.
  intros H3.
  split; [exact frustrum_coordinates_blocks | ].
  unfold _compute_frustrum. cbn [count position colors].
  rewrite frustrum_coordinates_blocks.
  assert (Hcount : length (frustrum_block deproject_pixel_to_point depth_size 1
                           ++ frustrum_block deproject_pixel_to_point
                                depth_size 3
                           ++ frustrum_block deproject_pixel_to_point
                                depth_size 5) * 2 = 48) by reflexivity.
  split; [exact Hcount | split].
  - rewrite (@length_concat_uniform Q 6).
    + reflexivity.
    + repeat (apply Forall_app; split);
        apply frustrum_block_segments; exact H3.
  - rewrite length_concat_repeat, Hcount. reflexivity.
Qed.

End Frustrum.

Lemma frustrum_vertex_list_is_well_formed_witness :
  (forall point d, length (MoreExamples.flat_deproject point d) = 3)
  /\ count (_compute_frustrum MoreExamples.flat_deproject (640, 480)%Z) = 48
  /\ length (position
               (_compute_frustrum MoreExamples.flat_deproject (640, 480)%Z))
     = 3 * 48.
Proof.
  assert (H3 : forall point d,
             length (MoreExamples.flat_deproject point d) = 3)
    by (intros; reflexivity).
  split; [exact H3 | ].
  destruct (@frustrum_vertex_list_is_well_formed
              MoreExamples.flat_deproject (640, 480)%Z H3)
    as (_ & Hc & Hp & _).
  split; assumption.
Defined.

End AppFacts.

(** ** Waiting for a usable pair *)

Module WaitingFacts.
Import Camera.

Section WithCollaborators.
Context {C : Collaborators}.

(** [get_frames] has no limit of its own on the pairs it drops: while no
    pair has both frames it is still in its loop, whatever the number of
    pairs it was given, and it has raised nothing. *)
Theorem get_frames_never_gives_up :
  forall fuel cam,
    streaming (_pipeline cam) = true ->
    (forall i,
       valid_pair (aligned_at (delivered (_pipeline cam) + i)) = false) ->
    get_frames fuel cam = None.
Proof.
  induction fuel as [| fuel IH]; intros cam Hs Hnone; [reflexivity | ].
  rewrite CameraFacts.get_frames_unusable.
  - apply IH; [reflexivity | ].
    intros i. simpl.
    replace (delivered (_pipeline cam) + 1 + i)
      with (delivered (_pipeline cam) + S i) by lia.
    apply Hnone.
  - exact Hs.
  - specialize (Hnone 0). rewrite Nat.add_0_r in Hnone. exact Hnone.
Qed.

End WithCollaborators.

Lemma get_frames_never_gives_up_witness :
  streaming (_pipeline Examples.camera0) = true
  /\ (forall i,
        valid_pair
          (@aligned_at MoreExamples.never_aligned
             (delivered (_pipeline Examples.camera0) + i)) = false)
  /\ @get_frames MoreExamples.never_aligned 1000 Examples.camera0 = None.
Proof.
  assert (Hnone : forall i,
             valid_pair
               (@aligned_at MoreExamples.never_aligned
                  (delivered (_pipeline Examples.camera0) + i)) = false)
    by (intros i; reflexivity).
  split; [reflexivity | split; [exact Hnone | ]].
  apply (@get_frames_never_gives_up MoreExamples.never_aligned 1000
           Examples.camera0 eq_refl Hnone).
Defined.

End WaitingFacts.
